(** * Catalog enrichment templates (src/agentic-app/src/utils/catalog.ts)

    A shallow embedding of the marketplace listing generator and of the
    batch enricher, with the properties its specification states. *)

From Stdlib Require Import NArith Ascii String Decimal.
From stdpp Require Import base option list gmap fin_maps.

Local Open Scope N_scope.
Local Open Scope nat_scope.

(** ** JavaScript strings

    A JavaScript string is a finite sequence of UTF-16 code units; its
    [length], [slice], [split] and [trim] all work on code units.  A code
    unit is kept as an [N] (below 65536 for a real string). *)

Abbreviation jsstring := (list N).

(** A literal of the source, all of them ASCII. *)
Definition str (s : string) : jsstring :=
  map N_of_ascii (list_ascii_of_string s).

(** [WhiteSpace] and [LineTerminator] of ECMAScript, what [trim] strips. *)
Definition is_white (c : N) : bool :=
  match c with
  | 9%N | 10%N | 11%N | 12%N | 13%N | 32%N | 160%N
  | 5760%N | 8232%N | 8233%N | 8239%N | 8287%N | 12288%N | 65279%N => true
  | _ => (8192 <=? c)%N && (c <=? 8202)%N
  end.

Fixpoint trimStart (s : jsstring) : jsstring :=
  match s with
  | c :: s' => if is_white c then trimStart s' else s
  | [] => []
  end.

Definition trimEnd (s : jsstring) : jsstring :=
  reverse (trimStart (reverse s)).

(** [s.trim()] *)
Definition trim (s : jsstring) : jsstring := trimEnd (trimStart s).

(** [s.slice(0, n)] for a string and for an array. *)
Definition slice0 {A} (n : nat) (l : list A) : list A := take n l.

(** [s.split(sep)] where every match of [sep] is exactly one code unit:
    a one-character string or a character class.  The empty string
    splits into one empty piece. *)
Fixpoint split (sep : N -> bool) (s : jsstring) : list jsstring :=
  match s with
  | [] => [[]]
  | c :: s' =>
      if sep c then [] :: split sep s'
      else match split sep s' with
           | [] => [[c]]
           | piece :: rest => (c :: piece) :: rest
           end
  end.

(** [a.join(sep)] on an array of strings. *)
Fixpoint join (sep : jsstring) (a : list jsstring) : jsstring :=
  match a with
  | [] => []
  | [x] => x
  | x :: a' => x ++ sep ++ join sep a'
  end.

(** The character classes of the source: [/[|,•\n]/] (the bullet is
    U+2022, code unit 8226), [/[.|]/] and [","]. *)
Definition sep_feature (c : N) : bool :=
  match c with
  | 124%N | 44%N | 8226%N | 10%N => true
  | _ => false
  end.

Definition sep_sentence (c : N) : bool :=
  match c with
  | 46%N | 124%N => true
  | _ => false
  end.

Definition sep_comma (c : N) : bool :=
  match c with
  | 44%N => true
  | _ => false
  end.

(** ** Values and rows

    [CatalogRow = Record<string, string>]: an object whose own properties
    are strings.  Reading a property that is not there gives [undefined],
    here [None]. *)

Abbreviation value := (option jsstring).
Abbreviation CatalogRow := (gmap jsstring jsstring).

(** [row.k] *)
Definition prop (row : CatalogRow) (k : string) : value := row !! str k.

(** [Boolean(v)]: [undefined] and the empty string are falsy. *)
Definition truthy (v : value) : bool :=
  match v with
  | Some (_ :: _) => true
  | _ => false
  end.

Definition nonempty (s : jsstring) : bool :=
  match s with
  | [] => false
  | _ => true
  end.

(** [a || b] between two values, and [a || "literal"] whose result is a
    string whatever [a] is. *)
Definition js_or (a b : value) : value := if truthy a then a else b.

Definition or_str (a : value) (d : jsstring) : jsstring :=
  match a with
  | Some (c :: s) => c :: s
  | _ => d
  end.

Infix "|||" := js_or (at level 50, left associativity).
Infix "||!" := or_str (at level 50, left associativity).

(** [String(v)] and the conversion a template literal applies. *)
Definition toString (v : value) : jsstring :=
  match v with
  | Some s => s
  | None => str "undefined"
  end.

(** [a.filter(Boolean)] on an array of [string | undefined]: what is
    left are non-empty strings. *)
Definition filterBoolean (a : list value) : list jsstring :=
  omap (fun v => if truthy v then v else None) a.

(** ** Platforms *)

Inductive ListingPlatform := Amazon | Flipkart | Meesho | Myntra.

Definition platformName (p : ListingPlatform) : jsstring :=
  match p with
  | Amazon => str "Amazon"
  | Flipkart => str "Flipkart"
  | Meesho => str "Meesho"
  | Myntra => str "Myntra"
  end.

(** ** Titles *)

Module Title.

(** The four parts of the Amazon title, before any filtering. *)
Definition amazonParts (row : CatalogRow) : list jsstring :=
  let brand := prop row "brand" ||| prop row "Brand" ||| prop row "vendor" ||! str "Premium" in
  let name := prop row "product_name" ||| prop row "title" ||| prop row "Name" ||! str "Product" in
  let keyTrait :=
    prop row "key_feature" ||| prop row "feature" ||| prop row "Features"
      ||| prop row "material" ||! str "" in
  let size := prop row "size" ||| prop row "Size" ||! str "" in
  [brand; name; keyTrait; size].

(** The joined title before [.slice(0, 180)]. *)
Definition amazonJoined (row : CatalogRow) : jsstring :=
  join (str " | ") (map trim (List.filter nonempty (amazonParts row))).

Definition amazon (row : CatalogRow) : jsstring :=
  slice0 180 (amazonJoined row).

Definition flipkart (row : CatalogRow) : jsstring :=
  let base := prop row "product_name" ||| prop row "title" ||! str "Exclusive Pick" in
  let qualifier := prop row "style" ||| prop row "pattern" ||| prop row "gender" ||! str "" in
  slice0 100 (trim (base ++ str " " ++ qualifier)).

Definition meesho (row : CatalogRow) : jsstring :=
  let base := prop row "product_name" ||| prop row "title" ||! str "Trendy Look" in
  let category := prop row "category" ||| prop row "segment" ||! str "Best Seller" in
  slice0 120 (base ++ str " - " ++ category).

Definition myntra (row : CatalogRow) : jsstring :=
  let brand := prop row "brand" ||| prop row "Brand" ||! str "Signature" in
  let base := prop row "product_name" ||| prop row "title" ||! str "Collection" in
  slice0 80 (brand ++ str " " ++ base).

End Title.

Definition titleTemplates (p : ListingPlatform) : CatalogRow -> jsstring :=
  match p with
  | Amazon => Title.amazon
  | Flipkart => Title.flipkart
  | Meesho => Title.meesho
  | Myntra => Title.myntra
  end.

(** The character ceiling of each platform's title. *)
Definition titleLimit (p : ListingPlatform) : nat :=
  match p with
  | Amazon => 180
  | Flipkart => 100
  | Meesho => 120
  | Myntra => 80
  end.

(** ** Bullet points *)

Module Bullets.

Definition amazon (row : CatalogRow) : list jsstring :=
  let features :=
    List.filter nonempty
      (map trim (split sep_feature (prop row "features" ||| prop row "Features" ||! str ""))) in
  let material : value :=
    if truthy (prop row "material")
    then Some (str "Crafted from " ++ toString (prop row "material") ++ str ".")
    else None in
  let usage : value :=
    if truthy (prop row "usage")
    then Some (str "Ideal for " ++ toString (prop row "usage") ++ str ".")
    else None in
  slice0 5 (filterBoolean ([material; usage] ++ map Some features)).

Definition flipkart (row : CatalogRow) : list jsstring :=
  let usp :=
    prop row "usp" ||| prop row "UniqueSellingPoint" ||| prop row "description" ||! str "" in
  slice0 5
    (List.filter (fun part => bool_decide (3 < length part))
       (map trim (split sep_sentence usp))).

Definition meeshoDefault : list jsstring :=
  [str "Trusted quality"; str "Curated for your boutique"; str "Ships fast"].

(** [row.highlight || row.Highlights || row.features || ""] *)
Definition meeshoHighlight (row : CatalogRow) : jsstring :=
  prop row "highlight" ||| prop row "Highlights" ||| prop row "features" ||! str "".

Definition meesho (row : CatalogRow) : list jsstring :=
  let highlight := meeshoHighlight row in
  if negb (nonempty highlight) then meeshoDefault
  else slice0 4 (List.filter nonempty (map trim (split sep_feature highlight))).

Definition myntra (row : CatalogRow) : list jsstring :=
  let styleTip := prop row "style_tip" ||| prop row "Styling" ||! str "" in
  let care := prop row "care" ||| prop row "care_instructions" ||! str "" in
  slice0 3 (List.filter nonempty [styleTip; care]).

End Bullets.

Definition bulletTemplates (p : ListingPlatform) : CatalogRow -> list jsstring :=
  match p with
  | Amazon => Bullets.amazon
  | Flipkart => Bullets.flipkart
  | Meesho => Bullets.meesho
  | Myntra => Bullets.myntra
  end.

(** ** Descriptions *)

Module Description.

Definition amazon (row : CatalogRow) : jsstring :=
  let name := prop row "product_name" ||| prop row "title" ||! str "this product" in
  let category := prop row "category" ||| prop row "ProductType" ||! str "premium item" in
  let tone := prop row "tone" ||! str "professional" in
  name ++ str " delivers a " ++ tone ++ str " experience in the " ++ category
    ++ str " category. Designed to maximise conversion with compelling features and customer-centric benefits.".

Definition flipkart (row : CatalogRow) : jsstring :=
  let origin := prop row "country_of_origin" ||| prop row "origin" ||! str "India" in
  str "Handpicked for Flipkart customers. Crafted in " ++ origin
    ++ str " with attention to detailing, ensuring great value for money shoppers.".

(** [||] binds tighter than [? :], so the condition is the whole
    [row.margin || row.wholesale_price]. *)
Definition meesho (row : CatalogRow) : jsstring :=
  let margin :=
    if truthy (prop row "margin" ||| prop row "wholesale_price")
    then str "Optimised margins for resellers."
    else str "" in
  str "Perfect addition for boutique sellers. " ++ margin
    ++ str " Lightweight packaging for reduced logistics cost.".

Definition myntra (row : CatalogRow) : jsstring :=
  let vibe := prop row "theme" ||| prop row "collection" ||! str "seasonal" in
  str "Part of our " ++ vibe
    ++ str " drop, aligned with Myntra style guides. Pair it effortlessly with trending wardrobe essentials.".

End Description.

Definition descriptionTemplates (p : ListingPlatform) : CatalogRow -> jsstring :=
  match p with
  | Amazon => Description.amazon
  | Flipkart => Description.flipkart
  | Meesho => Description.meesho
  | Myntra => Description.myntra
  end.

(** ** Search keywords *)

Module Keywords.

(** [item?.toString().trim() || ""] *)
Definition itemText (item : value) : jsstring := (trim <$> item) ||! str "".

Definition amazon (row : CatalogRow) : list jsstring :=
  let keywords := prop row "keywords" ||| prop row "search_terms" ||! str "" in
  let derived :=
    List.filter truthy
      [prop row "category"; prop row "sub_category"; prop row "material";
       prop row "color"; prop row "season"] in
  slice0 15
    (List.filter nonempty
       (map itemText (map Some (split sep_comma keywords) ++ derived))).

Definition flipkart (row : CatalogRow) : list jsstring :=
  map toString
    (List.filter truthy
       [prop row "category"; prop row "brand"; prop row "gender"; prop row "pattern"]).

Definition meesho (row : CatalogRow) : list jsstring :=
  map toString
    (List.filter truthy
       [prop row "category"; prop row "product_name";
        Some (str "Wholesale"); Some (str "Trending")]).

Definition myntra (row : CatalogRow) : list jsstring :=
  map toString
    (List.filter truthy
       [prop row "brand"; prop row "category"; prop row "occasion"; prop row "fit"]).

End Keywords.

Definition keywordTemplates (p : ListingPlatform) : CatalogRow -> list jsstring :=
  match p with
  | Amazon => Keywords.amazon
  | Flipkart => Keywords.flipkart
  | Meesho => Keywords.meesho
  | Myntra => Keywords.myntra
  end.

(** ** The listing record and the batch enricher *)

Record Listing := {
  Platform : ListingPlatform;
  Title : jsstring;
  BulletPoints : jsstring;
  Description : jsstring;
  SearchKeywords : jsstring;
  Price : jsstring;
  SKU : jsstring;
  HSN : jsstring
}.

Definition generateListing (row : CatalogRow) (platform : ListingPlatform) : Listing :=
  let title := titleTemplates platform row in
  let bullets := bulletTemplates platform row in
  let description := descriptionTemplates platform row in
  let keywords := keywordTemplates platform row in
  {| Platform := platform;
     Title := title;
     BulletPoints := join (str " | ") bullets;
     Description := description;
     SearchKeywords := join (str ", ") keywords;
     Price := prop row "price" ||| prop row "selling_price" ||| prop row "mrp" ||! str "";
     SKU := prop row "sku" ||| prop row "SKU" ||| prop row "Seller SKU" ||! str "";
     HSN := prop row "hsn" ||| prop row "hsn_code" ||! str "" |}.

(** The own properties of a listing, in the order the literal writes them. *)
Definition listingEntries (l : Listing) : list (jsstring * jsstring) :=
  [ (str "Platform", platformName (Platform l));
    (str "Title", Title l);
    (str "BulletPoints", BulletPoints l);
    (str "Description", Description l);
    (str "SearchKeywords", SearchKeywords l);
    (str "Price", Price l);
    (str "SKU", SKU l);
    (str "HSN", HSN l) ].

(** The names of the eight computed fields. *)
Definition computedFields : list jsstring :=
  [ str "Platform"; str "Title"; str "BulletPoints"; str "Description";
    str "SearchKeywords"; str "Price"; str "SKU"; str "HSN" ].

(** The listing as an object. *)
Definition listingObject (l : Listing) : CatalogRow :=
  list_to_map (listingEntries l).

(** Inside an object literal, [...source] copies the own properties of
    [source] onto the object built so far: a property already there is
    overwritten. *)
Definition spread (target source : CatalogRow) : CatalogRow := source ∪ target.

(** [{ ...row, ...generateListing(row, platform) }] *)
Definition mergeListing (row : CatalogRow) (platform : ListingPlatform) : CatalogRow :=
  spread (spread ∅ row) (listingObject (generateListing row platform)).

Definition enrichCatalog (rows : list CatalogRow) (platforms : list ListingPlatform)
    : list CatalogRow :=
  flat_map (fun row => map (fun platform => mergeListing row platform) platforms) rows.

(** ** The same code without the help of types

    TypeScript gives [row.brand] the type [string], yet at run time the
    property may be missing and the read gives [undefined]; a method
    called on [undefined] throws a [TypeError].  This second embedding
    keeps every intermediate as a run-time value and checks the receiver
    of every method call, so that what the typed embedding takes for
    granted can be proved. *)

Module Dyn.

Inductive result (A : Type) : Type :=
| Ok (a : A)
| TypeError.
Arguments Ok {A} a.
Arguments TypeError {A}.

Definition bind {A B} (m : result A) (f : A -> result B) : result B :=
  match m with
  | Ok a => f a
  | TypeError => TypeError
  end.

Notation "'let!' x ':=' m 'in' k" := (bind m (fun x => k))
  (at level 10, x name, m at level 100, k at level 200).

(** [recv.method(...)]: the receiver must be a string. *)
Definition call {A} (recv : value) (method : jsstring -> A) : result A :=
  match recv with
  | Some s => Ok (method s)
  | None => TypeError
  end.

(** [a.map(f)] with a callback that may throw. *)
Fixpoint mapM {A B} (f : A -> result B) (a : list A) : result (list B) :=
  match a with
  | [] => Ok []
  | x :: a' => let! y := f x in let! ys := mapM f a' in Ok (y :: ys)
  end.

(** [a.join(sep)]: an [undefined] element is written as nothing. *)
Definition joinValues (sep : jsstring) (a : list value) : jsstring :=
  join sep (map (default []) a).

Definition strings (a : list jsstring) : list value := map Some a.

Definition titleAmazon (row : CatalogRow) : result value :=
  let brand := prop row "brand" ||| prop row "Brand" ||| prop row "vendor" ||| Some (str "Premium") in
  let name := prop row "product_name" ||| prop row "title" ||| prop row "Name" ||| Some (str "Product") in
  let keyTrait :=
    prop row "key_feature" ||| prop row "feature" ||| prop row "Features"
      ||| prop row "material" ||| Some (str "") in
  let size := prop row "size" ||| prop row "Size" ||| Some (str "") in
  let! parts := mapM (fun part => call part trim)
             (List.filter truthy [brand; name; keyTrait; size]) in
  Ok (Some (slice0 180 (join (str " | ") parts))).

Definition titleFlipkart (row : CatalogRow) : result value :=
  let base := prop row "product_name" ||| prop row "title" ||| Some (str "Exclusive Pick") in
  let qualifier := prop row "style" ||| prop row "pattern" ||| prop row "gender" ||| Some (str "") in
  Ok (Some (slice0 100 (trim (toString base ++ str " " ++ toString qualifier)))).

Definition titleMeesho (row : CatalogRow) : result value :=
  let base := prop row "product_name" ||| prop row "title" ||| Some (str "Trendy Look") in
  let category := prop row "category" ||| prop row "segment" ||| Some (str "Best Seller") in
  Ok (Some (slice0 120 (toString base ++ str " - " ++ toString category))).

Definition titleMyntra (row : CatalogRow) : result value :=
  let brand := prop row "brand" ||| prop row "Brand" ||| Some (str "Signature") in
  let base := prop row "product_name" ||| prop row "title" ||| Some (str "Collection") in
  Ok (Some (slice0 80 (toString brand ++ str " " ++ toString base))).

Definition titleTemplates (p : ListingPlatform) : CatalogRow -> result value :=
  match p with
  | Amazon => titleAmazon
  | Flipkart => titleFlipkart
  | Meesho => titleMeesho
  | Myntra => titleMyntra
  end.

Definition bulletsAmazon (row : CatalogRow) : result (list value) :=
  let! pieces := call (prop row "features" ||| prop row "Features" ||| Some (str "")) (split sep_feature) in
  let features := List.filter nonempty (map trim pieces) in
  let material : value :=
    if truthy (prop row "material")
    then Some (str "Crafted from " ++ toString (prop row "material") ++ str ".")
    else None in
  let usage : value :=
    if truthy (prop row "usage")
    then Some (str "Ideal for " ++ toString (prop row "usage") ++ str ".")
    else None in
  Ok (slice0 5 (List.filter truthy ([material; usage] ++ strings features))).

Definition bulletsFlipkart (row : CatalogRow) : result (list value) :=
  let usp :=
    prop row "usp" ||| prop row "UniqueSellingPoint" ||| prop row "description"
      ||| Some (str "") in
  let! pieces := call usp (split sep_sentence) in
  Ok (strings (slice0 5
        (List.filter (fun part => bool_decide (3 < length part)) (map trim pieces)))).

Definition bulletsMeesho (row : CatalogRow) : result (list value) :=
  let highlight :=
    prop row "highlight" ||| prop row "Highlights" ||| prop row "features" ||| Some (str "") in
  if negb (truthy highlight)
  then Ok (strings Bullets.meeshoDefault)
  else
    let! pieces := call highlight (split sep_feature) in
    Ok (strings (slice0 4 (List.filter nonempty (map trim pieces)))).

Definition bulletsMyntra (row : CatalogRow) : result (list value) :=
  let styleTip := prop row "style_tip" ||| prop row "Styling" ||| Some (str "") in
  let care := prop row "care" ||| prop row "care_instructions" ||| Some (str "") in
  Ok (slice0 3 (List.filter truthy [styleTip; care])).

Definition bulletTemplates (p : ListingPlatform) : CatalogRow -> result (list value) :=
  match p with
  | Amazon => bulletsAmazon
  | Flipkart => bulletsFlipkart
  | Meesho => bulletsMeesho
  | Myntra => bulletsMyntra
  end.

Definition descriptionAmazon (row : CatalogRow) : value :=
  let name := prop row "product_name" ||| prop row "title" ||| Some (str "this product") in
  let category := prop row "category" ||| prop row "ProductType" ||| Some (str "premium item") in
  let tone := prop row "tone" ||| Some (str "professional") in
  Some (toString name ++ str " delivers a " ++ toString tone ++ str " experience in the "
          ++ toString category
          ++ str " category. Designed to maximise conversion with compelling features and customer-centric benefits.").

Definition descriptionFlipkart (row : CatalogRow) : value :=
  let origin := prop row "country_of_origin" ||| prop row "origin" ||| Some (str "India") in
  Some (str "Handpicked for Flipkart customers. Crafted in " ++ toString origin
          ++ str " with attention to detailing, ensuring great value for money shoppers.").

Definition descriptionMeesho (row : CatalogRow) : value :=
  let margin : value :=
    if truthy (prop row "margin" ||| prop row "wholesale_price")
    then Some (str "Optimised margins for resellers.")
    else Some (str "") in
  Some (str "Perfect addition for boutique sellers. " ++ toString margin
          ++ str " Lightweight packaging for reduced logistics cost.").

Definition descriptionMyntra (row : CatalogRow) : value :=
  let vibe := prop row "theme" ||| prop row "collection" ||| Some (str "seasonal") in
  Some (str "Part of our " ++ toString vibe
          ++ str " drop, aligned with Myntra style guides. Pair it effortlessly with trending wardrobe essentials.").

Definition descriptionTemplates (p : ListingPlatform) : CatalogRow -> value :=
  match p with
  | Amazon => descriptionAmazon
  | Flipkart => descriptionFlipkart
  | Meesho => descriptionMeesho
  | Myntra => descriptionMyntra
  end.

(** [item?.toString().trim() || ""]: the optional chain stops at an
    [undefined] item instead of throwing. *)
Definition itemText (item : value) : value :=
  match item with
  | None => None ||| Some (str "")
  | Some s => Some (trim s) ||| Some (str "")
  end.

Definition keywordsAmazon (row : CatalogRow) : result (list value) :=
  let keywords := prop row "keywords" ||| prop row "search_terms" ||| Some (str "") in
  let derived :=
    List.filter truthy
      [prop row "category"; prop row "sub_category"; prop row "material";
       prop row "color"; prop row "season"] in
  let! pieces := call keywords (split sep_comma) in
  Ok (slice0 15 (List.filter truthy (map itemText (strings pieces ++ derived)))).

Definition keywordsFlipkart (row : CatalogRow) : result (list value) :=
  Ok (map (fun v => Some (toString v))
        (List.filter truthy
           [prop row "category"; prop row "brand"; prop row "gender"; prop row "pattern"])).

Definition keywordsMeesho (row : CatalogRow) : result (list value) :=
  Ok (map (fun v => Some (toString v))
        (List.filter truthy
           [prop row "category"; prop row "product_name";
            Some (str "Wholesale"); Some (str "Trending")])).

Definition keywordsMyntra (row : CatalogRow) : result (list value) :=
  Ok (map (fun v => Some (toString v))
        (List.filter truthy
           [prop row "brand"; prop row "category"; prop row "occasion"; prop row "fit"])).

Definition keywordTemplates (p : ListingPlatform) : CatalogRow -> result (list value) :=
  match p with
  | Amazon => keywordsAmazon
  | Flipkart => keywordsFlipkart
  | Meesho => keywordsMeesho
  | Myntra => keywordsMyntra
  end.

(** The object literal of [generateListing]; a property may hold
    [undefined]. *)
Definition generateListing (row : CatalogRow) (platform : ListingPlatform)
    : result (gmap jsstring value) :=
  let! title := titleTemplates platform row in
  let! bullets := bulletTemplates platform row in
  let description := descriptionTemplates platform row in
  let! keywords := keywordTemplates platform row in
  Ok (list_to_map
        [ (str "Platform", Some (platformName platform));
          (str "Title", title);
          (str "BulletPoints", Some (joinValues (str " | ") bullets));
          (str "Description", description);
          (str "SearchKeywords", Some (joinValues (str ", ") keywords));
          (str "Price",
            prop row "price" ||| prop row "selling_price" ||| prop row "mrp" ||| Some (str ""));
          (str "SKU",
            prop row "sku" ||| prop row "SKU" ||| prop row "Seller SKU" ||| Some (str ""));
          (str "HSN", prop row "hsn" ||| prop row "hsn_code" ||| Some (str "")) ]).

End Dyn.

(** ** Objects in a store

    Rows and records are objects, held by reference.  The batch enricher
    is written once more over a store of objects, with the allocations
    and the property writes of the object literals spelled out, so that
    what happens to the objects of the caller can be stated. *)

Module Store.

Abbreviation loc := positive.
Abbreviation store := (gmap loc CatalogRow).

Definition M (A : Type) : Type := store -> A * store.

Definition ret {A} (a : A) : M A := fun h => (a, h).

Definition bind {A B} (m : M A) (f : A -> M B) : M B :=
  fun h => let '(a, h') := m h in f a h'.

Notation "'do!' x ':=' m 'in' k" := (bind m (fun x => k))
  (at level 10, x name, m at level 100, k at level 200).

(** The own properties of the object at [l]. *)
Definition read (l : loc) : M CatalogRow :=
  fun h => (default ∅ (h !! l), h).

(** A new object with the given own properties. *)
Definition alloc (o : CatalogRow) : M loc :=
  fun h => let l := fresh (dom h) in (l, <[l := o]> h).

(** [...source] inside the literal that builds [target]: every own
    property of [source] is written to [target]. *)
Definition copyProperties (target source : loc) : M unit :=
  fun h =>
    (tt, <[target := spread (default ∅ (h !! target)) (default ∅ (h !! source))]> h).

(** [generateListing(row, platform)] reads the row and returns a new
    object. *)
Definition generateListing (row : loc) (platform : ListingPlatform) : M loc :=
  do! r := read row in
  alloc (listingObject (generateListing r platform)).

(** [{ ...row, ...generateListing(row, platform) }] *)
Definition mergeListing (row : loc) (platform : ListingPlatform) : M loc :=
  do! record := alloc ∅ in
  do! _u := copyProperties record row in
  do! listing := generateListing row platform in
  do! _v := copyProperties record listing in
  ret record.

Fixpoint mapM {A B} (f : A -> M B) (a : list A) : M (list B) :=
  match a with
  | [] => ret []
  | x :: a' => do! y := f x in do! ys := mapM f a' in ret (y :: ys)
  end.

Definition enrichCatalog (rows : list loc) (platforms : list ListingPlatform) : M (list loc) :=
  do! nested := mapM (fun row => mapM (fun platform => mergeListing row platform) platforms) rows in
  ret (concat nested).

End Store.

(** ** The Amazon title as the specification words it

    "Join non-empty parts (in that fixed order) with [" | "], trim each
    part first, then hard-truncate the joined result to 180 characters":
    the parts are trimmed, those that are then empty are left out, the
    rest is joined and cut. *)

Module Spec.

Definition titleAmazon (row : CatalogRow) : jsstring :=
  slice0 180
    (join (str " | ") (List.filter nonempty (map trim (Title.amazonParts row)))).

End Spec.

(** ** What the statements below are written with *)

(** A value as the fallback logic sees it: the empty string is no value. *)
Definition norm (v : value) : value := if truthy v then v else None.

(** A row with the columns that hold the empty string left out. *)
Definition dropEmpty (row : CatalogRow) : CatalogRow :=
  filter (fun kv => kv.2 ≠ []) row.

(** The two texts of the Meesho description. *)
Definition meeshoWithMargin : jsstring :=
  str "Perfect addition for boutique sellers. Optimised margins for resellers. Lightweight packaging for reduced logistics cost.".

Definition meeshoWithoutMargin : jsstring :=
  str "Perfect addition for boutique sellers.  Lightweight packaging for reduced logistics cost.".

(** The record of one row and one platform, seen from the stores before
    and after the call that made it. *)
Definition recordOf (row : Store.loc) (p : ListingPlatform) (record : Store.loc)
    (h h' : Store.store) : Prop :=
  forall r, h !! row = Some r ->
    h !! record = None /\ h' !! record = Some (mergeListing r p).

(** Rows of the scenarios. *)
Definition longRow : CatalogRow := {[ str "product_name" := replicate 200 97%N ]}.

Definition redRow : CatalogRow :=
  {[ str "keywords" := str "red,red"; str "category" := str "red" ]}.

Definition blankHighlight : CatalogRow := {[ str "highlight" := str " " ]}.

Definition blankBrand : CatalogRow := {[ str "brand" := str " " ]}.

Definition emptyBrand : CatalogRow :=
  {[ str "brand" := str ""; str "Brand" := str "Acme"; str "features" := str "Soft,Light" ]}.

Definition acmeRow : CatalogRow := {[ str "brand" := str "Acme"; str "Title" := str "old" ]}.

(** A store with one row, a column of which has the name of a computed
    field. *)
Definition oneRowStore : Store.store := {[ 1%positive := acmeRow ]}.

(** ** Further notions for the statements *)

(** A string that does not begin with a blank. *)
Definition startsClean (s : jsstring) : Prop :=
  match s with
  | c :: _ => is_white c = false
  | [] => True
  end.

(** A string that does not end with a blank. *)
Definition endsClean (s : jsstring) : Prop := startsClean (reverse s).

(** The most bullets a platform can return: the [slice] caps of Amazon,
    Flipkart and Meesho, and the two entries Myntra starts from. *)
Definition bulletCap (p : ListingPlatform) : nat :=
  match p with
  | Amazon => 5
  | Flipkart => 5
  | Meesho => 4
  | Myntra => 2
  end.

(** The most keywords a platform can return: the [slice] cap of Amazon
    and the four entries the other platforms start from. *)
Definition keywordCap (p : ListingPlatform) : nat :=
  match p with
  | Amazon => 15
  | _ => 4
  end.

(** The columns the four template tables read. *)
Definition templateColumns : list string :=
  [ "brand"; "Brand"; "vendor"; "product_name"; "title"; "Name"; "key_feature";
    "feature"; "Features"; "material"; "size"; "Size"; "style"; "pattern";
    "gender"; "category"; "segment"; "features"; "usage"; "usp";
    "UniqueSellingPoint"; "description"; "highlight"; "Highlights"; "style_tip";
    "Styling"; "care"; "care_instructions"; "ProductType"; "tone";
    "country_of_origin"; "origin"; "margin"; "wholesale_price"; "theme";
    "collection"; "keywords"; "search_terms"; "sub_category"; "color"; "season";
    "occasion"; "fit" ]%string.

(** The columns [generateListing] reads for [Price], [SKU] and [HSN]. *)
Definition passthroughColumns : list string :=
  [ "price"; "selling_price"; "mrp"; "sku"; "SKU"; "Seller SKU"; "hsn"; "hsn_code" ]%string.

Definition readColumns : list string := templateColumns ++ passthroughColumns.

(** Two rows with the same value in each of the given columns. *)
Definition agreeOn (columns : list string) (r1 r2 : CatalogRow) : Prop :=
  Forall (fun k => prop r1 k = prop r2 k) columns.

(** ** The catalog assistant (the component around the enricher)

    The state of the component and what its handlers do to it: the React
    state setters are the fields of the next state, and the calls of
    [onProgress] are returned beside it. *)

#[global] Instance ListingPlatform_eq_dec : EqDecision ListingPlatform.
Proof. solve_decision. Defined.

Module CatalogAssistant.

Definition DEFAULT_PLATFORMS : list ListingPlatform := [Amazon; Flipkart; Meesho; Myntra].

(** The updater of [togglePlatform]:
    [prev.includes(platform) ? prev.filter((item) => item !== platform) : [...prev, platform]] *)
Definition togglePlatform (platform : ListingPlatform) (prev : list ListingPlatform)
    : list ListingPlatform :=
  if bool_decide (platform ∈ prev)
  then List.filter (fun item => negb (bool_decide (item = platform))) prev
  else prev ++ [platform].

(** A row as the CSV parser hands it over: its entries in the order of
    [Object.entries]; a cell may be [undefined]. *)
Abbreviation ParsedRow := (list (jsstring * value)).

(** [value?.toString().trim() ?? ""] *)
Definition cellText (v : value) : jsstring := default [] (trim <$> v).

(** [Object.fromEntries(entries)]: the properties are written in order,
    a later entry overwriting an earlier one of the same key. *)
Definition fromEntries (entries : list (jsstring * jsstring)) : CatalogRow :=
  foldl (fun o kv => <[kv.1 := kv.2]> o) ∅ entries.

(** [Object.fromEntries(Object.entries(row).map(([key, value]) =>
      [key.trim(), value?.toString().trim() ?? ""]))] *)
Definition cleanRow (row : ParsedRow) : CatalogRow :=
  fromEntries (map (fun kv => (trim kv.1, cellText kv.2)) row).

(** [Object.values(row).some(Boolean)] *)
Definition hasValue (row : CatalogRow) : bool :=
  existsb nonempty (map snd (map_to_list row)).

(** The rows the [complete] callback of [handleFile] stores:
    [result.data?.map(...).filter(...) ?? []]. *)
Definition parsedRows (data : option (list ParsedRow)) : list CatalogRow :=
  match data with
  | Some rows => List.filter hasValue (map cleanRow rows)
  | None => []
  end.

(** A length written in a template literal: its decimal digits. *)
Fixpoint digits (d : Decimal.uint) : jsstring :=
  match d with
  | Decimal.Nil => []
  | Decimal.D0 d => 48%N :: digits d
  | Decimal.D1 d => 49%N :: digits d
  | Decimal.D2 d => 50%N :: digits d
  | Decimal.D3 d => 51%N :: digits d
  | Decimal.D4 d => 52%N :: digits d
  | Decimal.D5 d => 53%N :: digits d
  | Decimal.D6 d => 54%N :: digits d
  | Decimal.D7 d => 55%N :: digits d
  | Decimal.D8 d => 56%N :: digits d
  | Decimal.D9 d => 57%N :: digits d
  end.

Definition numberToString (n : nat) : jsstring := digits (Nat.to_uint n).

Inductive UploadState := idle | processing | ready.

Record State := {
  rawRows : list CatalogRow;
  platforms : list ListingPlatform;
  uploadState : UploadState;
  message : jsstring;
  outputRows : list CatalogRow
}.

(** [handleGenerate]: the next state and the notes passed to
    [onProgress]. *)
Definition handleGenerate (s : State) : State * list jsstring :=
  if bool_decide (length (rawRows s) = 0) then
    ({| rawRows := rawRows s; platforms := platforms s; uploadState := uploadState s;
        message := str "Upload your catalog sheet first.";
        outputRows := outputRows s |}, [])
  else if bool_decide (length (platforms s) = 0) then
    ({| rawRows := rawRows s; platforms := platforms s; uploadState := uploadState s;
        message := str "Select at least one marketplace.";
        outputRows := outputRows s |}, [])
  else
    let generated := enrichCatalog (rawRows s) (platforms s) in
    ({| rawRows := rawRows s; platforms := platforms s; uploadState := uploadState s;
        message := str "Generated " ++ numberToString (length generated)
                     ++ str " marketplace-ready rows.";
        outputRows := generated |},
     [str "Listings prepared for " ++ join (str ", ") (map platformName (platforms s))
        ++ str "."]).

(** The [complete] callback of [handleFile]: the next state and the
    note passed to [onProgress]. *)
Definition handleFileComplete (data : option (list ParsedRow)) (s : State)
    : State * list jsstring :=
  let rows := parsedRows data in
  ({| rawRows := rows; platforms := platforms s; uploadState := ready;
      message := str "Parsed " ++ numberToString (length rows)
                   ++ str " rows. Choose marketplaces and click Generate Listings.";
      outputRows := outputRows s |},
   [str "Catalog sheet loaded with " ++ numberToString (length rows) ++ str " items."]).

End CatalogAssistant.

(** ** The page (src/unnamed/part_000) *)

Module Home.

(** The updater of [addIntel]: [[message, ...prev].slice(0, 12)] *)
Definition addIntel (message : jsstring) (prev : list jsstring) : list jsstring :=
  slice0 12 (message :: prev).

(** [\w]: an ASCII letter, a digit or the underscore. *)
Definition isWord (c : N) : bool :=
  ((65 <=? c)%N && (c <=? 90)%N) || ((97 <=? c)%N && (c <=? 122)%N)
  || ((48 <=? c)%N && (c <=? 57)%N) || (c =? 95)%N.

(** [s.split(/[^\w]+/)]: the pieces between the maximal runs of
    characters that are not word characters.  [inRun] tells that the
    character before was part of such a run. *)
Fixpoint splitRuns (inRun : bool) (s : jsstring) : list jsstring :=
  match s with
  | [] => [[]]
  | c :: s' =>
      if isWord c then
        match splitRuns false s' with
        | piece :: rest => (c :: piece) :: rest
        | [] => [[c]]
        end
      else if inRun then splitRuns true s'
      else [] :: splitRuns true s'
  end.

Definition splitNonWord (s : jsstring) : list jsstring := splitRuns false s.

(** The test [["Amazon", "Flipkart", "Meesho", "Myntra"].includes(part)],
    with the platform the string names. *)
Definition platformOfName (part : jsstring) : option ListingPlatform :=
  if bool_decide (part = str "Amazon") then Some Amazon
  else if bool_decide (part = str "Flipkart") then Some Flipkart
  else if bool_decide (part = str "Meesho") then Some Meesho
  else if bool_decide (part = str "Myntra") then Some Myntra
  else None.

(** [update.split(/[^\w]+/).map((part) => part.trim()).filter(...)] *)
Definition platformMatches (update : jsstring) : list ListingPlatform :=
  omap platformOfName (map trim (splitNonWord update)).

(** [Array.from(new Set(a))]: the elements of [a] in the order of their
    first occurrence. *)
Fixpoint fromSet (a : list ListingPlatform) : list ListingPlatform :=
  match a with
  | [] => []
  | x :: a' => x :: List.filter (fun y => negb (bool_decide (y = x))) (fromSet a')
  end.

(** What [onProgress] does to [activePlatforms]. *)
Definition onProgress (update : jsstring) (prev : list ListingPlatform)
    : list ListingPlatform :=
  let matches := platformMatches update in
  if bool_decide (length matches = 0) then prev
  else fromSet (prev ++ matches).

End Home.

(** The bar that [join(" | ")] puts between two bullets. *)
Definition sep_bar (c : N) : bool := (c =? 124)%N.

(** More rows of the scenarios. *)
Definition cottonRow : CatalogRow :=
  {[ str "material" := str "cotton"; str "usage" := str "summer" ]}.

Definition trimmedRow : CatalogRow := {[ str "brand" := str "Acme" ]}.

(** A parsed sheet of two rows: one with a padded brand, one with
    blanks only. *)
Definition paddedSheet : option (list CatalogAssistant.ParsedRow) :=
  Some [ [(str " brand ", Some (str " Acme "))]; [(str "brand", Some (str "  "))] ].

(** ** The voice agent (src/agentic-app/src/components/VoiceAgent.tsx)

    The command interpreter and what it does to the task list.  The
    identifier of a new task comes from [crypto.randomUUID()] or the
    clock and is an argument here; what is spoken and what is written to
    the log are returned beside the tasks. *)

(** [" "] as a separator. *)
Definition sep_space (c : N) : bool := (c =? 32)%N.

Module VoiceAgent.

Inductive Status := pending | inProgress | done.


Record Task := {
  id : jsstring;
  title : jsstring;
  status : Status;
  notes : value
}.


(** [s.startsWith(p)] *)
Fixpoint startsWith (p s : jsstring) : bool :=
  match p, s with
  | [], _ => true
  | a :: p', b :: s' => (a =? b)%N && startsWith p' s'
  | _ :: _, [] => false
  end.

(** [s.includes(sub)] *)
Fixpoint includes (sub s : jsstring) : bool :=
  startsWith sub s
  || match s with
     | [] => false
     | _ :: s' => includes sub s'
     end.

(** Case folding of a regular expression with the [i] flag and without
    the [u] flag, on ASCII: a character past 127 is never folded onto an
    ASCII letter. *)
Definition fold (c : N) : N :=
  if ((97 <=? c)%N && (c <=? 122)%N) then (c - 32)%N else c.

(** A literal pattern matched at the start of [s] under the [i] flag:
    what follows the match. *)
Fixpoint matchLiteral (pattern s : jsstring) : option jsstring :=
  match pattern, s with
  | [], _ => Some s
  | a :: pattern', b :: s' =>
      if (fold a =? fold b)%N then matchLiteral pattern' s' else None
  | _ :: _, [] => None
  end.

(** [message.replace(/^(create|add) task/i, "")] *)
Definition removeCreate (message : jsstring) : jsstring :=
  match matchLiteral (str "create task") message with
  | Some rest => rest
  | None =>
      match matchLiteral (str "add task") message with
      | Some rest => rest
      | None => message
      end
  end.

(** [s.replace(/mark task/i, "")]: the first occurrence is removed. *)
Fixpoint removeMark (s : jsstring) : jsstring :=
  match matchLiteral (str "mark task") s with
  | Some rest => rest
  | None =>
      match s with
      | [] => []
      | c :: s' => c :: removeMark s'
      end
  end.

(** [(done|complete)] at the start of [s]. *)
Definition matchDoneWord (s : jsstring) : option jsstring :=
  match matchLiteral (str "done") s with
  | Some rest => Some rest
  | None => matchLiteral (str "complete") s
  end.

(** [\s?(done|complete)] at the start of [s]: the white space is taken
    first and given back if the word does not follow it. *)
Definition matchSpaceDone (s : jsstring) : option jsstring :=
  match s with
  | c :: s' =>
      if is_white c then
        match matchDoneWord s' with
        | Some rest => Some rest
        | None => matchDoneWord s
        end
      else matchDoneWord s
  | [] => matchDoneWord s
  end.

(** [(as)?\s?(done|complete)] at the start of [s], [as] taken first. *)
Definition matchDone (s : jsstring) : option jsstring :=
  match matchLiteral (str "as") s with
  | Some afterAs =>
      match matchSpaceDone afterAs with
      | Some rest => Some rest
      | None => matchSpaceDone s
      end
  | None => matchSpaceDone s
  end.

(** [s.replace(/(as)?\s?(done|complete)/i, "")]: the leftmost match is
    removed. *)
Fixpoint removeDone (s : jsstring) : jsstring :=
  match matchDone s with
  | Some rest => rest
  | None =>
      match s with
      | [] => []
      | c :: s' => c :: removeDone s'
      end
  end.

(** [s.split(sep)] for a separator string that is not empty; [skip]
    counts the characters of a separator found that are still to pass. *)
Fixpoint splitOnFrom (sep : jsstring) (skip : nat) (s : jsstring) : list jsstring :=
  match s with
  | [] => [[]]
  | c :: s' =>
      match skip with
      | S k => splitOnFrom sep k s'
      | O =>
          if startsWith sep s then [] :: splitOnFrom sep (length sep - 1) s'
          else
            match splitOnFrom sep 0 s' with
            | piece :: rest => (c :: piece) :: rest
            | [] => [[c]]
            end
      end
  end.

Definition splitOn (sep s : jsstring) : list jsstring := splitOnFrom sep 0 s.

(** In the "update task" branch: [rest.join(" ")] where
    [const [, ...rest] = message.split(" ")], and [body.split(" with ")]. *)
Definition updateBody (message : jsstring) : jsstring :=
  join (str " ") (tail (split sep_space message)).

Definition updateParts (message : jsstring) : list jsstring :=
  splitOn (str " with ") (updateBody message).

Section Engine.

(** [String.prototype.toLowerCase] of the engine.  It follows the
    Unicode case tables and is left as a parameter. *)
Variable toLowerCase : jsstring -> jsstring.

(** [task.title.toLowerCase().includes(identifier.toLowerCase())] *)
Definition titleMatches (identifier : jsstring) (task : Task) : bool :=
  includes (toLowerCase identifier) (toLowerCase (title task)).

(** The updater of the "mark task" command. *)
Definition markDone (identifier : jsstring) (prev : list Task) : list Task :=
  map (fun task =>
         if titleMatches identifier task
         then {| id := id task; title := title task; status := done; notes := notes task |}
         else task)
    prev.

(** The updater of the "update task" command:
    [{ ...task, status: "in-progress", notes: notes || task.notes }]. *)
Definition updateNotes (identifier newNotes : jsstring) (prev : list Task) : list Task :=
  map (fun task =>
         if titleMatches (trim identifier) task
         then {| id := id task; title := title task; status := inProgress;
                 notes := Some newNotes ||| notes task |}
         else task)
    prev.




(** The tasks of the active board: [tasks.filter((task) => task.status !== "done")]. *)
Definition activeTasks (tasks : list Task) : list Task :=
  List.filter (fun task => match status task with done => false | _ => true end) tasks.

End Engine.

End VoiceAgent.


(** A component state with one row and two platforms selected. *)
Definition readyState : CatalogAssistant.State :=
  {| CatalogAssistant.rawRows := [acmeRow];
     CatalogAssistant.platforms := [Amazon; Meesho];
     CatalogAssistant.uploadState := CatalogAssistant.ready;
     CatalogAssistant.message := str "";
     CatalogAssistant.outputRows := [] |}.

(** * Properties *)

(** ** Strings and values *)

Lemma length_slice0 {A} (n : nat) (l : list A) : length (slice0 n l) ≤ n.
Proof. unfold slice0. rewrite length_take. lia. Qed.

Lemma slice0_strict {A} (n : nat) (l : list A) :
  n < length l ->
  length (slice0 n l) = n /\ exists rest, rest <> [] /\ l = slice0 n l ++ rest.
Proof.
  intros Hlt. unfold slice0. split.
  - rewrite length_take. lia.
  - exists (drop n l). split.
    + intros Hnil. apply (f_equal length) in Hnil.
      rewrite length_drop in Hnil. simpl in Hnil. lia.
    + symmetry. apply take_drop.
Qed.

Lemma truthy_or (a b : value) : truthy (a ||| b) = truthy a || truthy b.
Proof. unfold js_or. destruct (truthy a) eqn:E; simpl; [exact E | reflexivity]. Qed.

Lemma or_default (a : value) (d : jsstring) : a ||| Some d = Some (a ||! d).
Proof. destruct a as [[|c s]|]; reflexivity. Qed.

Lemma or_str_nil (a : value) : a ||! [] = [] <-> truthy a = false.
Proof. destruct a as [[|c s]|]; simpl; split; congruence. Qed.

(** The primitives on the inputs of the specification's scenarios. *)
Example split_delimiters :
  split sep_feature (str "Soft" ++ [8226%N] ++ str "Durable,Light")
    = [str "Soft"; str "Durable"; str "Light"].
Proof. vm_compute. reflexivity. Qed.

Example split_empty : split sep_comma (str "") = [str ""].
Proof. reflexivity. Qed.

Example split_edges : split sep_comma (str ",a,") = [str ""; str "a"; str ""].
Proof. vm_compute. reflexivity. Qed.

Example trim_both_ends : trim (str "  a b  ") = str "a b".
Proof. vm_compute. reflexivity. Qed.

Example amazon_bullets_delimiters :
  bulletTemplates Amazon {[ str "features" := str "Soft" ++ [8226%N] ++ str "Durable,Light" ]}
    = [str "Soft"; str "Durable"; str "Light"].
Proof. vm_compute. reflexivity. Qed.

Example amazon_alias_priority :
  titleTemplates Amazon {[ str "brand" := str "X"; str "Brand" := str "Y" ]}
    = str "X | Product".
Proof. vm_compute. reflexivity. Qed.

(** ** The cross product *)

Section CrossProduct.
Context {A B C : Type} (f : A -> B -> C).

Lemma cross_length (xs : list A) (ys : list B) :
  length (flat_map (fun x => map (f x) ys) xs) = length xs * length ys.
Proof.
  induction xs as [|x xs IH]; simpl; [reflexivity|].
  rewrite length_app, length_map, IH. reflexivity.
Qed.

Lemma cross_lookup (xs : list A) (ys : list B) (i j : nat) (x : A) (y : B) :
  xs !! i = Some x -> ys !! j = Some y ->
  flat_map (fun x => map (f x) ys) xs !! (i * length ys + j) = Some (f x y).
Proof.
  revert i. induction xs as [|x0 xs IH]; intros i Hi Hj; [discriminate|].
  simpl. destruct i as [|i]; simpl in *.
  - injection Hi as ->. rewrite lookup_app_l.
    + rewrite list_lookup_fmap, Hj. reflexivity.
    + rewrite length_map. eapply lookup_lt_Some, Hj.
  - rewrite lookup_app_r; rewrite length_map; [|lia].
    replace (length ys + i * length ys + j - length ys) with (i * length ys + j) by lia.
    apply IH; assumption.
Qed.
End CrossProduct.

(** C1. For [R] rows and [P] platforms the batch enricher returns exactly
    [R * P] merged records; the record of row [i] and platform [j] stands
    at index [i * P + j], so that the expansions of a row are contiguous,
    rows in their original order and platforms in the order supplied; the
    result is empty when there are no rows or no platforms. *)
Theorem enrichCatalog_cross_product (rows : list CatalogRow) (platforms : list ListingPlatform) :
  length (enrichCatalog rows platforms) = length rows * length platforms
  /\ (forall i j row platform,
        rows !! i = Some row -> platforms !! j = Some platform ->
        enrichCatalog rows platforms !! (i * length platforms + j)
          = Some (mergeListing row platform))
  /\ enrichCatalog [] platforms = []
  /\ enrichCatalog rows [] = [].
Proof.
  unfold enrichCatalog. split; [|split; [|split]].
  - apply cross_length.
  - intros i j row platform Hi Hj. exact (cross_lookup mergeListing rows platforms i j _ _ Hi Hj).
  - reflexivity.
  - apply length_zero_iff_nil.
    rewrite (cross_length mergeListing). simpl. lia.
Qed.

Lemma enrichCatalog_cross_product_witness :
  enrichCatalog [∅; acmeRow] [Meesho; Amazon] !! 3 = Some (mergeListing acmeRow Amazon).
Proof.
  exact (proj1 (proj2 (enrichCatalog_cross_product [∅; acmeRow] [Meesho; Amazon]))
           1 1 _ _ eq_refl eq_refl).
Defined.

(** ** Title ceilings *)

(** C4. The title of every platform stays within the platform's ceiling
    (Amazon 180, Flipkart 100, Meesho 120, Myntra 80 code units), the cut
    being made on the final string; and when the joined Amazon title is
    longer than 180, the title is exactly its first 180 code units, a
    strict prefix of the join. *)
Theorem title_ceiling (row : CatalogRow) :
  (forall p, length (titleTemplates p row) ≤ titleLimit p)
  /\ (180 < length (Title.amazonJoined row) ->
      length (titleTemplates Amazon row) = 180
      /\ exists rest, rest <> []
           /\ Title.amazonJoined row = titleTemplates Amazon row ++ rest).
Proof.
  split.
  - intros []; apply length_slice0.
  - intros Hlong. exact (slice0_strict 180 _ Hlong).
Qed.

Lemma title_ceiling_witness :
  length (titleTemplates Amazon longRow) = 180
  /\ exists rest, rest <> []
       /\ Title.amazonJoined longRow = titleTemplates Amazon longRow ++ rest.
Proof.
  apply (proj2 (title_ceiling longRow)).
  vm_compute. lia.
Defined.

(** ** Scenarios on fixed rows *)

(** C6. The empty row on Meesho: the bullets are the three defaults and
    the title is "Trendy Look - Best Seller". *)
Theorem meesho_empty_row :
  bulletTemplates Meesho ∅
    = [str "Trusted quality"; str "Curated for your boutique"; str "Ships fast"]
  /\ titleTemplates Meesho ∅ = str "Trendy Look - Best Seller"
  /\ Title (generateListing ∅ Meesho) = str "Trendy Look - Best Seller"
  /\ BulletPoints (generateListing ∅ Meesho)
       = str "Trusted quality | Curated for your boutique | Ships fast".
Proof. repeat split; vm_compute; reflexivity. Qed.

(** C9. No deduplication of Amazon keywords: the row
    [{keywords: "red,red", category: "red"}] gives the keyword sequence
    red, red, red and the [SearchKeywords] string "red, red, red". *)
Theorem amazon_keywords_not_deduplicated :
  keywordTemplates Amazon redRow = [str "red"; str "red"; str "red"]
  /\ SearchKeywords (generateListing redRow Amazon) = str "red, red, red"
  /\ length (List.filter (fun k => bool_decide (k = str "red")) (keywordTemplates Amazon redRow)) = 3.
Proof. repeat split; vm_compute; reflexivity. Qed.

(** ** The Meesho description *)

(** C8. The Meesho description is the text with the margin clause when
    [margin] or [wholesale_price] is present and non-empty, and otherwise
    the text without it, two spaces standing where the clause would be. *)
Theorem meesho_description (row : CatalogRow) :
  descriptionTemplates Meesho row
    = if truthy (prop row "margin") || truthy (prop row "wholesale_price")
      then meeshoWithMargin
      else meeshoWithoutMargin.
Proof.
  simpl. unfold Description.meesho. rewrite truthy_or.
  destruct (truthy (prop row "margin") || truthy (prop row "wholesale_price"));
    vm_compute; reflexivity.
Qed.

(** ** Blank values *)

Lemma trimStart_white (s : jsstring) :
  Forall (fun c => is_white c = true) s -> trimStart s = [].
Proof.
  induction 1 as [|c s Hc _ IH]; simpl; [reflexivity|].
  rewrite Hc. exact IH.
Qed.

Lemma trim_white (s : jsstring) :
  Forall (fun c => is_white c = true) s -> trim s = [].
Proof.
  intros Hs. unfold trim, trimEnd. rewrite (trimStart_white s Hs). reflexivity.
Qed.

Lemma split_white (sep : N -> bool) (s : jsstring) :
  Forall (fun c => is_white c = true \/ sep c = true) s ->
  Forall (Forall (fun c => is_white c = true)) (split sep s).
Proof.
  induction 1 as [|c s Hc _ IH]; simpl.
  - repeat constructor.
  - destruct (sep c) eqn:Hsep.
    + constructor; [constructor | exact IH].
    + destruct Hc as [Hc|Hc]; [|congruence].
      destruct (split sep s) as [|piece rest]; inversion IH; subst;
        repeat constructor; assumption.
Qed.

Lemma blank_pieces_dropped (pieces : list jsstring) :
  Forall (Forall (fun c => is_white c = true)) pieces ->
  List.filter nonempty (map trim pieces) = [].
Proof.
  induction 1 as [|piece pieces Hp _ IH]; simpl; [reflexivity|].
  rewrite (trim_white piece Hp). exact IH.
Qed.

(** C10. The three default Meesho bullets are substituted exactly when
    none of [highlight], [Highlights], [features] holds a non-empty
    string.  A value that is not empty goes through the split, also when
    the split leaves nothing: a value made of blanks and delimiters only,
    such as [" "], gives no bullet at all and an empty [BulletPoints]. *)
Theorem meesho_defaults_only_when_empty :
  (forall row,
      Bullets.meeshoHighlight row = []
      <-> truthy (prop row "highlight") = false
          /\ truthy (prop row "Highlights") = false
          /\ truthy (prop row "features") = false)
  /\ (forall row,
        Bullets.meeshoHighlight row = [] ->
        bulletTemplates Meesho row = Bullets.meeshoDefault)
  /\ (forall row,
        Bullets.meeshoHighlight row <> [] ->
        bulletTemplates Meesho row
          = slice0 4 (List.filter nonempty
                        (map trim (split sep_feature (Bullets.meeshoHighlight row)))))
  /\ (forall row,
        Bullets.meeshoHighlight row <> [] ->
        Forall (fun c => is_white c = true \/ sep_feature c = true)
          (Bullets.meeshoHighlight row) ->
        bulletTemplates Meesho row = []
        /\ BulletPoints (generateListing row Meesho) = [])
  /\ (bulletTemplates Meesho blankHighlight = []
      /\ BulletPoints (generateListing blankHighlight Meesho) = []
      /\ Bullets.meeshoDefault <> []).
Proof.
  assert (Hsplit : forall row, Bullets.meeshoHighlight row <> [] ->
            Bullets.meesho row
            = slice0 4 (List.filter nonempty
                          (map trim (split sep_feature (Bullets.meeshoHighlight row))))).
  { intros row Hne. unfold Bullets.meesho.
    destruct (Bullets.meeshoHighlight row); [congruence | reflexivity]. }
  split; [|split; [|split; [|split]]].
  - intros row. unfold Bullets.meeshoHighlight.
    rewrite or_str_nil, !truthy_or, !orb_false_iff. tauto.
  - intros row Hnil. simpl. unfold Bullets.meesho. rewrite Hnil. reflexivity.
  - exact Hsplit.
  - intros row Hne Hblank.
    assert (Hb : Bullets.meesho row = []).
    { rewrite (Hsplit row Hne), blank_pieces_dropped; [reflexivity|].
      apply split_white, Hblank. }
    split; [exact Hb|].
    simpl. rewrite Hb. reflexivity.
  - repeat split; vm_compute; congruence.
Qed.

Lemma meesho_defaults_only_when_empty_witness :
  bulletTemplates Meesho ∅ = Bullets.meeshoDefault
  /\ bulletTemplates Meesho blankHighlight
      = slice0 4 (List.filter nonempty
                    (map trim (split sep_feature (Bullets.meeshoHighlight blankHighlight))))
  /\ bulletTemplates Meesho blankHighlight = []
  /\ BulletPoints (generateListing blankHighlight Meesho) = [].
Proof.
  destruct meesho_defaults_only_when_empty as (_ & Hdefault & Hsplit & Hblank & _).
  split; [|split].
  - apply Hdefault. vm_compute. reflexivity.
  - apply Hsplit. vm_compute. congruence.
  - assert (Hvalue : Bullets.meeshoHighlight blankHighlight = [32%N])
      by (vm_compute; reflexivity).
    apply Hblank; rewrite Hvalue.
    + congruence.
    + repeat constructor.
Defined.

(** ** The Amazon title *)

Lemma filter_trim_commute (parts : list jsstring) :
  Forall (fun part => part <> [] -> trim part <> []) parts ->
  map trim (List.filter nonempty parts) = List.filter nonempty (map trim parts).
Proof.
  induction 1 as [|part parts Hpart _ IH]; simpl; [reflexivity|].
  destruct part as [|c s]; simpl.
  - exact IH.
  - destruct (trim (c :: s)) eqn:Ht.
    + exfalso. apply Hpart; [discriminate | reflexivity].
    + simpl. rewrite IH. reflexivity.
Qed.

(** Where no part is made of blanks only, the code and the wording of
    the specification give the same Amazon title. *)
Lemma amazon_title_as_specified (row : CatalogRow) :
  Forall (fun part => part <> [] -> trim part <> []) (Title.amazonParts row) ->
  titleTemplates Amazon row = Spec.titleAmazon row.
Proof.
  intros Hparts. simpl. unfold Title.amazon, Title.amazonJoined, Spec.titleAmazon.
  rewrite (filter_trim_commute _ Hparts). reflexivity.
Qed.

(** C3. The Amazon title takes the four parts through their fallback
    chains, drops the parts that are empty, trims those that remain,
    joins them with [" | "] and keeps the first 180 code units.  On the
    row [{brand: " "}] the brand survives the filter and is trimmed to
    nothing afterwards: the title is [" | Product"], where trimming
    before filtering gives ["Product"]. *)
Theorem amazon_title_blank_brand :
  Title.amazonParts blankBrand = [str " "; str "Product"; str ""; str ""]
  /\ titleTemplates Amazon blankBrand = str " | Product"
  /\ Spec.titleAmazon blankBrand = str "Product"
  /\ titleTemplates Amazon blankBrand <> Spec.titleAmazon blankBrand.
Proof. repeat split; vm_compute; congruence. Qed.

(** ** Empty values and absent keys *)

Lemma prop_dropEmpty (row : CatalogRow) (k : string) :
  prop (dropEmpty row) k = norm (prop row k).
Proof.
  unfold prop, dropEmpty.
  destruct (row !! str k) as [[|c s]|] eqn:E; simpl.
  - apply map_lookup_filter_None. right. intros x Hx. simpl. congruence.
  - apply map_lookup_filter_Some. split; [exact E | simpl; congruence].
  - apply map_lookup_filter_None. left. exact E.
Qed.

Lemma norm_or (a b : value) : norm a ||| norm b = norm (a ||| b).
Proof. destruct a as [[|c s]|]; reflexivity. Qed.

Lemma norm_or_str (a : value) (d : jsstring) : norm a ||! d = a ||! d.
Proof. destruct a as [[|c s]|]; reflexivity. Qed.

Lemma truthy_norm (a : value) : truthy (norm a) = truthy a.
Proof. destruct a as [[|c s]|]; reflexivity. Qed.

Lemma guarded_norm {A} (a : value) (f : value -> A) (g : A) :
  (if truthy a then f (norm a) else g) = (if truthy a then f a else g).
Proof. destruct a as [[|c s]|]; reflexivity. Qed.

Lemma filter_truthy_norm (a : list value) :
  List.filter truthy (map norm a) = List.filter truthy a.
Proof.
  induction a as [|v a IH]; simpl; [reflexivity|].
  rewrite truthy_norm, IH. destruct v as [[|c s]|]; reflexivity.
Qed.

Lemma filter_truthy_norm4 (a b c d : value) :
  List.filter truthy [norm a; norm b; norm c; norm d] = List.filter truthy [a; b; c; d].
Proof. exact (filter_truthy_norm [a; b; c; d]). Qed.

Lemma filter_truthy_norm5 (a b c d e : value) :
  List.filter truthy [norm a; norm b; norm c; norm d; norm e]
    = List.filter truthy [a; b; c; d; e].
Proof. exact (filter_truthy_norm [a; b; c; d; e]). Qed.

Lemma filter_truthy_norm2 (a b c d : value) :
  List.filter truthy [norm a; norm b; c; d] = List.filter truthy [a; b; c; d].
Proof.
  change (List.filter truthy ([norm a; norm b] ++ [c; d])
          = List.filter truthy ([a; b] ++ [c; d])).
  rewrite !List.filter_app. f_equal. exact (filter_truthy_norm [a; b]).
Qed.

Ltac drop_norm :=
  rewrite ?prop_dropEmpty;
  rewrite ?norm_or, ?norm_or_str, ?truthy_norm,
    ?filter_truthy_norm4, ?filter_truthy_norm5, ?filter_truthy_norm2.

Lemma titleTemplates_dropEmpty (p : ListingPlatform) (row : CatalogRow) :
  titleTemplates p (dropEmpty row) = titleTemplates p row.
Proof.
  destruct p; simpl;
    unfold Title.amazon, Title.amazonJoined, Title.amazonParts,
      Title.flipkart, Title.meesho, Title.myntra;
    drop_norm; reflexivity.
Qed.

Lemma bulletTemplates_dropEmpty (p : ListingPlatform) (row : CatalogRow) :
  bulletTemplates p (dropEmpty row) = bulletTemplates p row.
Proof.
  destruct p; simpl;
    unfold Bullets.amazon, Bullets.flipkart, Bullets.meesho, Bullets.meeshoHighlight,
      Bullets.myntra;
    drop_norm; try reflexivity.
  rewrite (guarded_norm (prop row "material")
             (fun v => Some (str "Crafted from " ++ toString v ++ str "."))).
  rewrite (guarded_norm (prop row "usage")
             (fun v => Some (str "Ideal for " ++ toString v ++ str "."))).
  reflexivity.
Qed.

Lemma descriptionTemplates_dropEmpty (p : ListingPlatform) (row : CatalogRow) :
  descriptionTemplates p (dropEmpty row) = descriptionTemplates p row.
Proof.
  destruct p; simpl;
    unfold Description.amazon, Description.flipkart, Description.meesho, Description.myntra;
    drop_norm; reflexivity.
Qed.

Lemma keywordTemplates_dropEmpty (p : ListingPlatform) (row : CatalogRow) :
  keywordTemplates p (dropEmpty row) = keywordTemplates p row.
Proof.
  destruct p; simpl;
    unfold Keywords.amazon, Keywords.flipkart, Keywords.meesho, Keywords.myntra;
    drop_norm; reflexivity.
Qed.

(** The listing only sees the non-empty values of the row. *)
Lemma generateListing_dropEmpty (row : CatalogRow) (p : ListingPlatform) :
  generateListing (dropEmpty row) p = generateListing row p.
Proof.
  unfold generateListing.
  rewrite titleTemplates_dropEmpty, bulletTemplates_dropEmpty,
    descriptionTemplates_dropEmpty, keywordTemplates_dropEmpty.
  drop_norm. reflexivity.
Qed.

Lemma dropEmpty_delete (row : CatalogRow) (k : jsstring) :
  row !! k = Some [] -> dropEmpty (delete k row) = dropEmpty row.
Proof.
  intros Hk. unfold dropEmpty. apply map_filter_delete_not.
  intros y Hy. rewrite Hk in Hy. injection Hy as <-. simpl. congruence.
Qed.

(** C5. A column that holds the empty string counts as an absent column:
    removing it from the row changes nothing in the listing, whatever the
    platform. *)
Theorem empty_value_as_absent (row : CatalogRow) (p : ListingPlatform) (k : jsstring) :
  row !! k = Some [] ->
  generateListing row p = generateListing (delete k row) p.
Proof.
  intros Hk.
  rewrite <- (generateListing_dropEmpty row), <- (generateListing_dropEmpty (delete k row)).
  rewrite (dropEmpty_delete row k Hk). reflexivity.
Qed.

Lemma empty_value_as_absent_witness :
  generateListing emptyBrand Amazon = generateListing (delete (str "brand") emptyBrand) Amazon.
Proof.
  apply (empty_value_as_absent emptyBrand Amazon (str "brand")).
  vm_compute. reflexivity.
Defined.

(** ** No method is ever called on [undefined] *)

Lemma truthy_Some (s : jsstring) : truthy (Some s) = nonempty s.
Proof. destruct s; reflexivity. Qed.

Lemma filter_truthy_Some (a : list jsstring) :
  List.filter truthy (map Some a) = map Some (List.filter nonempty a).
Proof.
  induction a as [|s a IH]; simpl; [reflexivity|].
  rewrite IH. destruct s; reflexivity.
Qed.

Lemma filter_truthy_Some2 (a b : jsstring) :
  List.filter truthy [Some a; Some b] = map Some (List.filter nonempty [a; b]).
Proof. exact (filter_truthy_Some [a; b]). Qed.

Lemma filter_truthy_Some4 (a b c d : jsstring) :
  List.filter truthy [Some a; Some b; Some c; Some d]
    = map Some (List.filter nonempty [a; b; c; d]).
Proof. exact (filter_truthy_Some [a; b; c; d]). Qed.

Lemma filter_truthy_filterBoolean (a : list value) :
  List.filter truthy a = map Some (filterBoolean a).
Proof.
  unfold filterBoolean.
  induction a as [|v a IH]; simpl; [reflexivity|].
  rewrite IH. destruct v as [[|c s]|]; reflexivity.
Qed.

Lemma mapM_call (f : jsstring -> jsstring) (a : list jsstring) :
  Dyn.mapM (fun part => Dyn.call part f) (map Some a) = Dyn.Ok (map f a).
Proof.
  induction a as [|s a IH]; simpl; [reflexivity|].
  rewrite IH. reflexivity.
Qed.

Lemma joinValues_strings (sep : jsstring) (a : list jsstring) :
  Dyn.joinValues sep (map Some a) = join sep a.
Proof.
  unfold Dyn.joinValues. rewrite map_map. simpl. rewrite map_id. reflexivity.
Qed.

Lemma itemText_string (item : value) : Dyn.itemText item = Some (Keywords.itemText item).
Proof. destruct item as [s|]; simpl; [apply or_default | reflexivity]. Qed.

Lemma map_toString (a : list value) :
  map (fun v => Some (toString v)) a = map Some (map toString a).
Proof. rewrite map_map. reflexivity. Qed.

Lemma titleTemplates_safe (p : ListingPlatform) (row : CatalogRow) :
  Dyn.titleTemplates p row = Dyn.Ok (Some (titleTemplates p row)).
Proof.
  destruct p; simpl;
    unfold Dyn.titleAmazon, Dyn.titleFlipkart, Dyn.titleMeesho, Dyn.titleMyntra,
      Title.amazon, Title.amazonJoined, Title.amazonParts,
      Title.flipkart, Title.meesho, Title.myntra;
    rewrite !or_default; try reflexivity.
  rewrite filter_truthy_Some4, mapM_call. reflexivity.
Qed.

Lemma bulletTemplates_safe (p : ListingPlatform) (row : CatalogRow) :
  Dyn.bulletTemplates p row = Dyn.Ok (map Some (bulletTemplates p row)).
Proof.
  destruct p; simpl;
    unfold Dyn.bulletsAmazon, Dyn.bulletsFlipkart, Dyn.bulletsMeesho, Dyn.bulletsMyntra,
      Bullets.amazon, Bullets.flipkart, Bullets.meesho, Bullets.meeshoHighlight,
      Bullets.myntra, Dyn.strings, slice0;
    rewrite !or_default; cbn [Dyn.bind Dyn.call].
  - rewrite filter_truthy_filterBoolean, firstn_map. reflexivity.
  - reflexivity.
  - rewrite truthy_Some. destruct (nonempty _); reflexivity.
  - rewrite filter_truthy_Some2, firstn_map. reflexivity.
Qed.

Lemma descriptionTemplates_safe (p : ListingPlatform) (row : CatalogRow) :
  Dyn.descriptionTemplates p row = Some (descriptionTemplates p row).
Proof.
  destruct p; simpl;
    unfold Dyn.descriptionAmazon, Dyn.descriptionFlipkart, Dyn.descriptionMeesho,
      Dyn.descriptionMyntra,
      Description.amazon, Description.flipkart, Description.meesho, Description.myntra;
    rewrite ?or_default; try reflexivity.
  destruct (truthy _); reflexivity.
Qed.

Lemma keywordTemplates_safe (p : ListingPlatform) (row : CatalogRow) :
  Dyn.keywordTemplates p row = Dyn.Ok (map Some (keywordTemplates p row)).
Proof.
  destruct p; simpl;
    unfold Dyn.keywordsAmazon, Dyn.keywordsFlipkart, Dyn.keywordsMeesho, Dyn.keywordsMyntra,
      Keywords.amazon, Keywords.flipkart, Keywords.meesho, Keywords.myntra,
      Dyn.strings, slice0;
    rewrite ?or_default, ?map_toString; try reflexivity.
  simpl Dyn.bind.
  rewrite (map_ext Dyn.itemText (fun v => Some (Keywords.itemText v)) itemText_string).
  rewrite <- (map_map Keywords.itemText Some), filter_truthy_Some, firstn_map.
  reflexivity.
Qed.

(** The dynamically checked listing never throws, and it is the typed
    listing, every field a string. *)
Lemma generateListing_safe (row : CatalogRow) (p : ListingPlatform) :
  Dyn.generateListing row p = Dyn.Ok (Some <$> listingObject (generateListing row p)).
Proof.
  unfold Dyn.generateListing.
  rewrite titleTemplates_safe, bulletTemplates_safe, descriptionTemplates_safe,
    keywordTemplates_safe.
  simpl Dyn.bind. rewrite !joinValues_strings, !or_default.
  unfold listingObject. rewrite <- list_to_map_fmap. reflexivity.
Qed.

Lemma listingObject_fields (l : Listing) (k : jsstring) :
  k ∈ computedFields <-> is_Some (listingObject l !! k).
Proof.
  unfold listingObject. rewrite <- not_eq_None_Some, <- not_elem_of_list_to_map.
  change ((listingEntries l).*1) with computedFields.
  split; [tauto|]. intros Hnn. destruct (decide (k ∈ computedFields)); tauto.
Qed.

(** C2. [generateListing] never throws, whatever the row and the
    platform, the empty row included: run with every method call
    checked, it returns an object, and in that object each of
    [Platform], [Title], [BulletPoints], [Description], [SearchKeywords],
    [Price], [SKU] and [HSN] holds a string, none is missing and none is
    [undefined]. *)
Theorem generateListing_total (row : CatalogRow) (p : ListingPlatform) :
  exists obj : gmap jsstring value,
    Dyn.generateListing row p = Dyn.Ok obj
    /\ obj = Some <$> listingObject (generateListing row p)
    /\ Forall (fun k => exists s : jsstring, obj !! k = Some (Some s)) computedFields.
Proof.
  eexists. split; [apply generateListing_safe|]. split; [reflexivity|].
  apply Forall_forall. intros k Hk.
  apply listingObject_fields with (l := generateListing row p) in Hk.
  destruct Hk as [s Hs]. exists s. rewrite lookup_fmap, Hs. reflexivity.
Qed.

(** ** Merged records *)

Ltac key_ne := let H := fresh in intros H; vm_compute in H; discriminate H.

Lemma computedFields_NoDup : NoDup computedFields.
Proof. apply (bool_decide_unpack _). vm_compute. exact I. Qed.

Lemma listingObject_lookup (l : Listing) (k v : jsstring) :
  (k, v) ∈ listingEntries l -> listingObject l !! k = Some v.
Proof.
  intros Hkv. apply elem_of_list_to_map_1; [|exact Hkv].
  exact computedFields_NoDup.
Qed.

Lemma mergeListing_lookup (row : CatalogRow) (p : ListingPlatform) (k : jsstring) :
  mergeListing row p !! k
    = match listingObject (generateListing row p) !! k with
      | Some v => Some v
      | None => row !! k
      end.
Proof.
  unfold mergeListing, spread. rewrite (right_id_L ∅ (∪) row), lookup_union.
  destruct (listingObject _ !! k), (row !! k); reflexivity.
Qed.

(** What a merged record holds: the computed fields, and around them the
    columns of the row. *)
Lemma mergeListing_fields (row : CatalogRow) (p : ListingPlatform) :
  (forall k v, (k, v) ∈ listingEntries (generateListing row p) ->
               mergeListing row p !! k = Some v)
  /\ (forall k, k ∉ computedFields -> mergeListing row p !! k = row !! k)
  /\ dom row ⊆ dom (mergeListing row p).
Proof.
  split; [|split].
  - intros k v Hkv. rewrite mergeListing_lookup, (listingObject_lookup _ k v Hkv). reflexivity.
  - intros k Hk. rewrite mergeListing_lookup.
    destruct (listingObject (generateListing row p) !! k) eqn:E; [|reflexivity].
    exfalso. apply Hk. apply listingObject_fields with (l := generateListing row p).
    rewrite E. eauto.
  - intros k. rewrite !elem_of_dom, mergeListing_lookup.
    destruct (listingObject _ !! k); eauto.
Qed.

(** ** The store: what the enricher allocates and what it leaves alone *)

Section StoreSpec.
Lemma fresh_unused (h : Store.store) : h !! fresh (dom h) = None.
Proof. apply not_elem_of_dom, is_fresh. Qed.

(** One merged record: a new object, and every object that was there
    before is still there with the same properties. *)
Lemma mergeListing_spec (h : Store.store) (row : Store.loc) (p : ListingPlatform) (r : CatalogRow) :
  h !! row = Some r ->
  exists record h',
    Store.mergeListing row p h = (record, h')
    /\ h ⊆ h'
    /\ h !! record = None
    /\ h' !! record = Some (mergeListing r p).
Proof.
  intros Hrow.
  unfold Store.mergeListing, Store.generateListing, Store.bind, Store.alloc,
    Store.copyProperties, Store.read, Store.ret.
  set (record := fresh (dom h)).
  assert (Hrec : h !! record = None) by apply fresh_unused.
  assert (Hne : record <> row) by congruence.
  rewrite (lookup_insert_eq h record), (lookup_insert_ne h record row) by exact Hne.
  rewrite Hrow. cbn [from_option id].
  set (h2 := <[record := spread ∅ r]> (<[record := ∅]> h)).
  assert (H2row : h2 !! row = Some r).
  { unfold h2. rewrite !lookup_insert_ne by exact Hne. exact Hrow. }
  assert (H2rec : h2 !! record = Some (spread ∅ r)) by apply lookup_insert_eq.
  rewrite H2row. cbn [from_option id].
  set (listing := fresh (dom h2)).
  assert (Hlst : h2 !! listing = None) by apply fresh_unused.
  assert (Hne2 : listing <> record) by congruence.
  rewrite (lookup_insert_ne h2 listing record) by exact Hne2.
  rewrite H2rec, (lookup_insert_eq h2 listing). cbn [from_option id].
  eexists _, _. split; [reflexivity|]. split; [|split].
  - apply map_subseteq_spec. intros l o Hl.
    assert (l <> record) by congruence.
    assert (Hl2 : h2 !! l = Some o).
    { unfold h2. rewrite !lookup_insert_ne by congruence. exact Hl. }
    assert (l <> listing) by congruence.
    rewrite !lookup_insert_ne by congruence. exact Hl2.
  - exact Hrec.
  - rewrite lookup_insert_eq. reflexivity.
Qed.

(** [mapM] over calls that only extend the store. *)
Section Extending.
Context {A B : Type} (f : A -> Store.M B).
Context (Pre : A -> Store.store -> Prop) (Post : A -> B -> Store.store -> Store.store -> Prop).
Hypothesis Pre_mono : forall x h1 h2, Pre x h1 -> h1 ⊆ h2 -> Pre x h2.
Hypothesis Post_mono :
  forall x y h0 h1 h2 h3, Post x y h1 h2 -> h0 ⊆ h1 -> h2 ⊆ h3 -> Post x y h0 h3.
Hypothesis f_spec :
  forall x h, Pre x h -> exists y h', f x h = (y, h') /\ h ⊆ h' /\ Post x y h h'.

Lemma mapM_spec (xs : list A) (h : Store.store) :
  Forall (fun x => Pre x h) xs ->
  exists ys h',
    Store.mapM f xs h = (ys, h') /\ h ⊆ h' /\ Forall2 (fun x y => Post x y h h') xs ys.
Proof.
  revert h. induction xs as [|x xs IH]; intros h Hpre.
  - exists [], h. repeat split; [reflexivity | constructor].
  - inversion Hpre as [|? ? Hx Hxs]; subst.
    destruct (f_spec x h Hx) as (y & h1 & Hf & Hsub1 & Hpost).
    destruct (IH h1) as (ys & h2 & Hm & Hsub2 & Hposts).
    { eapply Forall_impl; [exact Hxs|]. intros x' Hx'. exact (Pre_mono x' h h1 Hx' Hsub1). }
    exists (y :: ys), h2. split; [|split].
    + simpl. unfold Store.bind, Store.ret. rewrite Hf, Hm. reflexivity.
    + etransitivity; eassumption.
    + constructor.
      * eapply Post_mono; [exact Hpost | reflexivity | exact Hsub2].
      * eapply Forall2_impl; [exact Hposts|]. intros x' y' Hp.
        eapply Post_mono; [exact Hp | exact Hsub1 | reflexivity].
Qed.
End Extending.

Lemma recordOf_mono (row : Store.loc) (p : ListingPlatform) (record : Store.loc)
  (h0 h1 h2 h3 : Store.store) :
  recordOf row p record h1 h2 -> h0 ⊆ h1 -> h2 ⊆ h3 -> recordOf row p record h0 h3.
Proof.
  intros Hrec H01 H23 r Hr.
  destruct (Hrec r) as [Hnew Hm].
  { eapply lookup_weaken; eassumption. }
  split.
  - destruct (h0 !! record) eqn:E; [|reflexivity].
    rewrite (lookup_weaken _ _ _ _ E H01) in Hnew. discriminate.
  - eapply lookup_weaken; eassumption.
Qed.

Lemma expandRow_spec (platforms : list ListingPlatform) (row : Store.loc) (h : Store.store) :
  is_Some (h !! row) ->
  exists records h',
    Store.mapM (fun platform => Store.mergeListing row platform) platforms h = (records, h')
    /\ h ⊆ h'
    /\ Forall2 (fun p record => recordOf row p record h h') platforms records.
Proof.
  intros Hrow.
  apply (mapM_spec (fun platform => Store.mergeListing row platform)
           (fun _ h0 => is_Some (h0 !! row))
           (fun p record h0 h1 => recordOf row p record h0 h1)).
  - intros _ h1 h2 [r Hr] Hsub. exists r. eapply lookup_weaken; eassumption.
  - intros p record h0 h1 h2 h3. apply recordOf_mono.
  - intros p h0 [r Hr].
    destruct (mergeListing_spec h0 row p r Hr) as (record & h1 & Hrun & Hsub & Hnew & Hm).
    exists record, h1. split; [exact Hrun|]. split; [exact Hsub|].
    intros r' Hr'. rewrite Hr in Hr'. injection Hr' as <-. split; assumption.
  - apply Forall_forall. intros _ _. exact Hrow.
Qed.

Lemma enrichCatalog_spec (rows : list Store.loc) (platforms : list ListingPlatform) (h : Store.store) :
  Forall (fun row => is_Some (h !! row)) rows ->
  exists nested h',
    Store.enrichCatalog rows platforms h = (concat nested, h')
    /\ h ⊆ h'
    /\ Forall2 (fun row records =>
                  Forall2 (fun p record => recordOf row p record h h') platforms records)
         rows nested.
Proof.
  intros Hrows.
  destruct (mapM_spec
              (fun row => Store.mapM (fun platform => Store.mergeListing row platform) platforms)
              (fun row h0 => is_Some (h0 !! row))
              (fun row records h0 h1 =>
                 Forall2 (fun p record => recordOf row p record h0 h1) platforms records))
    with (xs := rows) (h := h) as (nested & h' & Hrun & Hsub & Hall).
  - intros row h1 h2 [r Hr] H12. exists r. eapply lookup_weaken; eassumption.
  - intros row records h0 h1 h2 h3 Hrec H01 H23.
    eapply Forall2_impl; [exact Hrec|]. intros p record Hp.
    exact (recordOf_mono row p record h0 h1 h2 h3 Hp H01 H23).
  - intros row h0 Hrow. apply expandRow_spec, Hrow.
  - exact Hrows.
  - exists nested, h'. split; [|split; assumption].
    unfold Store.enrichCatalog, Store.bind, Store.ret. rewrite Hrun. reflexivity.
Qed.

Lemma concat_lookup {X} (nested : list (list X)) (n i j : nat) (xs : list X) (x : X) :
  Forall (fun ys => length ys = n) nested ->
  nested !! i = Some xs -> xs !! j = Some x ->
  concat nested !! (i * n + j) = Some x.
Proof.
  intros Hlen. revert i. induction Hlen as [|ys nested Hys _ IH]; intros i Hi Hj.
  - discriminate.
  - destruct i as [|i]; simpl in *.
    + injection Hi as ->. rewrite lookup_app_l; [exact Hj|].
      eapply lookup_lt_Some, Hj.
    + rewrite lookup_app_r by lia.
      replace (n + i * n + j - length ys) with (i * n + j) by lia.
      apply IH; assumption.
Qed.
(** The objects the store-level enricher returns hold what the
    enricher on values computes from the contents of the rows. *)
Lemma expandRow_contents (platforms : list ListingPlatform) (row : Store.loc) (r : CatalogRow)
    (records : list Store.loc) (h h' : Store.store) :
  h !! row = Some r ->
  Forall2 (fun p record => recordOf row p record h h') platforms records ->
  Forall2 (fun record merged => h' !! record = Some merged)
    records (map (fun platform => mergeListing r platform) platforms).
Proof.
  intros Hrow. induction 1 as [|p record platforms records Hrec _ IH]; simpl.
  - constructor.
  - constructor; [exact (proj2 (Hrec r Hrow)) | exact IH].
Qed.

Lemma enrichCatalog_refines (rows : list Store.loc) (contents : list CatalogRow)
    (platforms : list ListingPlatform) (h : Store.store) :
  Forall2 (fun row r => h !! row = Some r) rows contents ->
  exists out h',
    Store.enrichCatalog rows platforms h = (out, h')
    /\ Forall2 (fun record merged => h' !! record = Some merged)
         out (enrichCatalog contents platforms).
Proof.
  intros Hcontents.
  destruct (enrichCatalog_spec rows platforms h) as (nested & h' & Hrun & _ & Hall).
  { eapply Forall2_Forall_l; [exact Hcontents|].
    apply Forall_forall. intros r _ row Hrow. rewrite Hrow. eauto. }
  exists (concat nested), h'. split; [exact Hrun|].
  clear Hrun. revert nested Hall.
  induction Hcontents as [|row r rows contents Hrow _ IH]; intros nested Hall.
  - inversion Hall; subst. constructor.
  - inversion Hall as [|? records ? nested' Hrecords Hrest]; subst. simpl.
    apply Forall2_app; [|apply IH, Hrest].
    exact (expandRow_contents platforms row r records h h' Hrow Hrecords).
Qed.

End StoreSpec.

(** C7. Each merged record is a new object that holds every column of
    the row: a column that is not one of the eight computed names keeps
    its value, and each computed name holds the computed value, also
    when the row has a column of that name.  Every object that existed
    before the call, the input rows among them, has the same properties
    after it. *)
Theorem enrichCatalog_merges_and_preserves
    (h : Store.store) (rows : list Store.loc) (platforms : list ListingPlatform) :
  Forall (fun row => is_Some (h !! row)) rows ->
  exists out h',
    Store.enrichCatalog rows platforms h = (out, h')
    /\ (forall l o, h !! l = Some o -> h' !! l = Some o)
    /\ forall i j l row p,
         rows !! i = Some l -> h !! l = Some row -> platforms !! j = Some p ->
         exists record,
           out !! (i * length platforms + j) = Some record
           /\ h !! record = None
           /\ h' !! record = Some (mergeListing row p)
           /\ (forall k v, (k, v) ∈ listingEntries (generateListing row p) ->
                           mergeListing row p !! k = Some v)
           /\ (forall k, k ∉ computedFields -> mergeListing row p !! k = row !! k)
           /\ dom row ⊆ dom (mergeListing row p).
Proof.
  intros Hrows.
  destruct (enrichCatalog_spec rows platforms h Hrows) as (nested & h' & Hrun & Hsub & Hall).
  exists (concat nested), h'. split; [exact Hrun|]. split.
  - intros l o Hl. eapply lookup_weaken; eassumption.
  - intros i j l row p Hi Hl Hj.
    destruct (Forall2_lookup_l _ _ _ _ _ Hall Hi) as (records & Hrecords & Hrow).
    destruct (Forall2_lookup_l _ _ _ _ _ Hrow Hj) as (record & Hrecord & Hrec).
    destruct (Hrec row Hl) as [Hnew Hmerged].
    exists record. split; [|split; [exact Hnew|split; [exact Hmerged|]]].
    + apply concat_lookup with (xs := records); [|assumption..].
      apply Forall_forall. intros records' Hin.
      apply list_elem_of_lookup in Hin as [i' Hi'].
      destruct (Forall2_lookup_r _ _ _ _ _ Hall Hi') as (row' & _ & Hrow').
      symmetry. exact (Forall2_length _ _ _ Hrow').
    + apply mergeListing_fields.
Qed.

Lemma enrichCatalog_merges_and_preserves_witness :
  exists out h',
    Store.enrichCatalog [1%positive] [Amazon] oneRowStore = (out, h')
    /\ h' !! 1%positive = Some acmeRow
    /\ exists record,
         out !! 0 = Some record
         /\ oneRowStore !! record = None
         /\ h' !! record = Some (mergeListing acmeRow Amazon)
         /\ mergeListing acmeRow Amazon !! str "Title" = Some (str "Acme | Product")
         /\ mergeListing acmeRow Amazon !! str "brand" = Some (str "Acme").
Proof.
  destruct (enrichCatalog_merges_and_preserves oneRowStore [1%positive] [Amazon])
    as (out & h' & Hrun & Hframe & Hrecords).
  { repeat constructor. vm_compute. eauto. }
  exists out, h'. split; [exact Hrun|]. split.
  - apply Hframe. vm_compute. reflexivity.
  - destruct (Hrecords 0 0 1%positive acmeRow Amazon eq_refl eq_refl eq_refl)
      as (record & Hout & Hnew & Hmerged & Hcomputed & Hkept & _).
    exists record. repeat (split; [assumption|]). split.
    + apply Hcomputed. vm_compute. apply list_elem_of_In. simpl. tauto.
    + rewrite Hkept; [vm_compute; reflexivity|].
      intros Hin. apply list_elem_of_In in Hin. vm_compute in Hin.
      repeat (destruct Hin as [Hin|Hin]; [discriminate Hin|]). exact Hin.
Defined.

(** * Further properties of the code *)

(** ** Trimming *)

Lemma trimStart_blanks (s : jsstring) :
  exists blanks, s = blanks ++ trimStart s /\ Forall (fun c => is_white c = true) blanks.
Proof.
  induction s as [|c s (blanks & Hs & Hblanks)]; simpl.
  - exists []. split; [reflexivity | constructor].
  - destruct (is_white c) eqn:Hc.
    + exists (c :: blanks). split; [simpl; congruence | constructor; assumption].
    + exists []. split; [reflexivity | constructor].
Qed.

Lemma trimStart_startsClean (s : jsstring) : startsClean (trimStart s).
Proof.
  induction s as [|c s IH]; simpl; [exact I|].
  destruct (is_white c) eqn:Hc; [exact IH | exact Hc].
Qed.

Lemma trimStart_id (s : jsstring) : startsClean s -> trimStart s = s.
Proof. destruct s as [|c s]; simpl; [reflexivity|]. intros ->. reflexivity. Qed.

Lemma trimEnd_blanks (s : jsstring) :
  exists blanks, s = trimEnd s ++ blanks /\ Forall (fun c => is_white c = true) blanks.
Proof.
  unfold trimEnd. destruct (trimStart_blanks (reverse s)) as (blanks & Hs & Hblanks).
  exists (reverse blanks). split.
  - rewrite <- reverse_app, <- Hs, reverse_involutive. reflexivity.
  - apply Forall_reverse. exact Hblanks.
Qed.

Lemma trimEnd_startsClean (s : jsstring) : startsClean s -> startsClean (trimEnd s).
Proof.
  intros Hs. destruct (trimEnd_blanks s) as (blanks & Heq & _).
  destruct (trimEnd s) as [|c t] eqn:E; [exact I|].
  rewrite Heq in Hs. exact Hs.
Qed.

Lemma trimEnd_trimEnd (s : jsstring) : trimEnd (trimEnd s) = trimEnd s.
Proof.
  unfold trimEnd. rewrite reverse_involutive.
  rewrite (trimStart_id (trimStart _)); [reflexivity | apply trimStart_startsClean].
Qed.

Lemma trim_trim (s : jsstring) : trim (trim s) = trim s.
Proof.
  unfold trim.
  rewrite (trimStart_id (trimEnd (trimStart s))).
  - apply trimEnd_trimEnd.
  - apply trimEnd_startsClean, trimStart_startsClean.
Qed.

Lemma trim_id (s : jsstring) : startsClean s -> endsClean s -> trim s = s.
Proof.
  intros Hs He. unfold trim, trimEnd. rewrite (trimStart_id s Hs).
  rewrite (trimStart_id (reverse s) He). apply reverse_involutive.
Qed.

Lemma trim_clean (s : jsstring) : startsClean (trim s) /\ endsClean (trim s).
Proof.
  split.
  - unfold trim. apply trimEnd_startsClean, trimStart_startsClean.
  - unfold endsClean, trim, trimEnd. rewrite reverse_involutive. apply trimStart_startsClean.
Qed.

Lemma trimmed_clean (s : jsstring) : trim s = s <-> startsClean s /\ endsClean s.
Proof.
  split.
  - intros <-. apply trim_clean.
  - intros [Hs He]. apply trim_id; assumption.
Qed.

(** ** Bullets and keywords: how many, and what they look like *)

Lemma filter_bool_Forall {A} (f : A -> bool) (l : list A) :
  Forall (fun x => f x = true) (List.filter f l).
Proof.
  induction l as [|x l IH]; simpl; [constructor|].
  destruct (f x) eqn:Hx; [constructor; assumption | exact IH].
Qed.

Lemma filter_bool_length {A} (f : A -> bool) (l : list A) :
  length (List.filter f l) ≤ length l.
Proof.
  induction l as [|x l IH]; simpl; [lia|].
  destruct (f x); simpl; lia.
Qed.

Lemma filter_nonempty_Forall (l : list jsstring) :
  Forall (fun s => s <> []) (List.filter nonempty l).
Proof.
  eapply Forall_impl; [apply filter_bool_Forall|].
  intros [|c s]; simpl; congruence.
Qed.

Lemma filterBoolean_Forall (P : jsstring -> Prop) (a : list value) :
  Forall (fun v => forall s, v = Some s -> s <> [] -> P s) a ->
  Forall (fun s => s <> [] /\ P s) (filterBoolean a).
Proof.
  unfold filterBoolean. induction 1 as [|v a Hv _ IH]; simpl; [constructor|].
  destruct v as [[|c s]|]; simpl; try exact IH.
  constructor; [|exact IH]. split; [congruence|]. apply Hv; congruence.
Qed.

Lemma filter_truthy_Forall (P : jsstring -> Prop) (a : list value) :
  Forall (fun v => forall s, v = Some s -> s <> [] -> P s) a ->
  Forall (fun s => s <> [] /\ P s) (map toString (List.filter truthy a)).
Proof.
  induction 1 as [|v a Hv _ IH]; simpl; [constructor|].
  destruct v as [[|c s]|]; simpl; try exact IH.
  constructor; [|exact IH]. split; [congruence|]. apply Hv; congruence.
Qed.

Lemma bullets_within_cap (p : ListingPlatform) (row : CatalogRow) :
  length (bulletTemplates p row) ≤ bulletCap p.
Proof.
  destruct p; simpl; try apply length_slice0.
  - unfold Bullets.meesho. destruct (nonempty _); cbn [negb]; [apply length_slice0 | simpl; lia].
  - unfold Bullets.myntra, slice0. rewrite length_take.
    match goal with
    | |- context [List.filter nonempty ?l] =>
        pose proof (filter_bool_length nonempty l) as Hlen; cbn [length] in Hlen
    end.
    lia.
Qed.

Lemma bullets_nonempty (p : ListingPlatform) (row : CatalogRow) :
  Forall (fun bullet => bullet <> []) (bulletTemplates p row).
Proof.
  destruct p; simpl.
  - apply Forall_take. eapply Forall_impl.
    + apply (filterBoolean_Forall (fun _ => True)). apply Forall_forall. auto.
    + intros s [Hs _]. exact Hs.
  - apply Forall_take. eapply Forall_impl; [apply filter_bool_Forall|].
    intros s Hs ->. vm_compute in Hs. discriminate Hs.
  - unfold Bullets.meesho. destruct (nonempty _); cbn [negb].
    + apply Forall_take, filter_nonempty_Forall.
    + repeat constructor; discriminate.
  - apply Forall_take, filter_nonempty_Forall.
Qed.

(** X1. No platform returns more bullets than its cap (5, 5, 4, and 2
    for Myntra), and no bullet is the empty string. *)
Theorem bullets_capped_nonempty (p : ListingPlatform) (row : CatalogRow) :
  length (bulletTemplates p row) ≤ bulletCap p
  /\ Forall (fun bullet => bullet <> []) (bulletTemplates p row).
Proof. split; [apply bullets_within_cap | apply bullets_nonempty]. Qed.

Lemma map_trim_trimmed (pieces : list jsstring) :
  Forall (fun s => trim s = s) (map trim pieces).
Proof.
  induction pieces as [|s pieces IH]; simpl; constructor; [apply trim_trim | exact IH].
Qed.

Lemma Forall_filter_bool {A} (P : A -> Prop) (f : A -> bool) (l : list A) :
  Forall P l -> Forall P (List.filter f l).
Proof.
  induction 1 as [|x l Hx _ IH]; simpl; [constructor|].
  destruct (f x); [constructor; assumption | exact IH].
Qed.

(** A sentence built around a value: it begins with a letter and ends
    with a full stop, whatever the value. *)
Lemma sentence_trimmed (c : N) (before : jsstring) (v : jsstring) :
  is_white c = false ->
  trim ((c :: before) ++ v ++ str ".") = (c :: before) ++ v ++ str ".".
Proof.
  intros Hc. apply trim_id.
  - exact Hc.
  - unfold endsClean. rewrite !reverse_app. reflexivity.
Qed.

Lemma amazon_bullets_trimmed (row : CatalogRow) :
  Forall (fun bullet => trim bullet = bullet) (bulletTemplates Amazon row).
Proof.
  simpl. unfold Bullets.amazon. apply Forall_take.
  eapply Forall_impl.
  - apply (filterBoolean_Forall (fun s => trim s = s)).
    repeat apply Forall_cons_2.
    + destruct (truthy (prop row "material")); intros s Hs _; [|discriminate].
      injection Hs as <-. exact (sentence_trimmed 67%N (str "rafted from ") _ eq_refl).
    + destruct (truthy (prop row "usage")); intros s Hs _; [|discriminate].
      injection Hs as <-. exact (sentence_trimmed 73%N (str "deal for ") _ eq_refl).
    + apply Forall_forall. intros v Hv s -> _.
      apply list_elem_of_In, in_map_iff in Hv as (s' & Hs' & Hin).
      injection Hs' as ->.
      apply list_elem_of_In in Hin.
      revert s Hin. apply Forall_forall, Forall_filter_bool, map_trim_trimmed.
  - intros s [_ Hs]. exact Hs.
Qed.

Lemma flipkart_bullets_trimmed (row : CatalogRow) :
  Forall (fun bullet => trim bullet = bullet) (bulletTemplates Flipkart row).
Proof.
  simpl. unfold Bullets.flipkart. apply Forall_take, Forall_filter_bool, map_trim_trimmed.
Qed.

Lemma meesho_bullets_trimmed (row : CatalogRow) :
  Forall (fun bullet => trim bullet = bullet) (bulletTemplates Meesho row).
Proof.
  simpl. unfold Bullets.meesho. destruct (nonempty _); cbn [negb].
  - apply Forall_take, Forall_filter_bool, map_trim_trimmed.
  - repeat constructor.
Qed.

(** X2. Every bullet of Amazon, Flipkart and Meesho is trimmed: it
    neither begins nor ends with white space.  (Myntra passes its two
    columns on as they are.) *)
Theorem bullets_trimmed (row : CatalogRow) :
  Forall (fun bullet => trim bullet = bullet) (bulletTemplates Amazon row)
  /\ Forall (fun bullet => trim bullet = bullet) (bulletTemplates Flipkart row)
  /\ Forall (fun bullet => trim bullet = bullet) (bulletTemplates Meesho row).
Proof.
  split; [|split];
    [apply amazon_bullets_trimmed | apply flipkart_bullets_trimmed | apply meesho_bullets_trimmed].
Qed.

(** X3. On Amazon the material sentence, when there is a material, is
    the first bullet, and the usage sentence, when there is a usage,
    comes right after it (first when there is no material): the cap of
    five never cuts them. *)
Theorem amazon_sentences_lead (row : CatalogRow) :
  (forall material, prop row "material" = Some material -> material <> [] ->
     bulletTemplates Amazon row !! 0
       = Some (str "Crafted from " ++ material ++ str "."))
  /\ (forall usage, prop row "usage" = Some usage -> usage <> [] ->
        bulletTemplates Amazon row !! (if truthy (prop row "material") then 1 else 0)
          = Some (str "Ideal for " ++ usage ++ str ".")).
Proof.
  simpl. unfold Bullets.amazon. split.
  - intros material -> Hm. destruct material as [|c m]; [congruence|]. reflexivity.
  - intros usage -> Hu. destruct usage as [|c u]; [congruence|].
    destruct (prop row "material") as [[|c' m]|]; reflexivity.
Qed.

Lemma itemText_trimmed (item : value) : trim (Keywords.itemText item) = Keywords.itemText item.
Proof.
  unfold Keywords.itemText. destruct item as [s|]; simpl; [|reflexivity].
  destruct (trim s) as [|c t] eqn:E; simpl; [reflexivity|].
  rewrite <- E. apply trim_trim.
Qed.

(** X4. No platform returns more keywords than its cap (15 on Amazon,
    4 elsewhere), no keyword is the empty string, and the Amazon
    keywords are trimmed. *)
Theorem keywords_capped_nonempty (p : ListingPlatform) (row : CatalogRow) :
  length (keywordTemplates p row) ≤ keywordCap p
  /\ Forall (fun keyword => keyword <> []) (keywordTemplates p row)
  /\ Forall (fun keyword => trim keyword = keyword) (keywordTemplates Amazon row).
Proof.
  assert (Hsmall : forall a b c d : value,
            length (map toString (List.filter truthy [a; b; c; d])) ≤ 4
            /\ Forall (fun keyword => keyword <> [])
                 (map toString (List.filter truthy [a; b; c; d]))).
  { intros a b c d. split.
    - rewrite length_map.
      pose proof (filter_bool_length truthy [a; b; c; d]) as Hlen. exact Hlen.
    - eapply Forall_impl.
      + apply (filter_truthy_Forall (fun _ => True)). apply Forall_forall. auto.
      + intros s [Hs _]. exact Hs. }
  split; [|split].
  - destruct p; simpl; try apply Hsmall. apply length_slice0.
  - destruct p; simpl; try apply Hsmall.
    unfold Keywords.amazon. apply Forall_take, filter_nonempty_Forall.
  - simpl. unfold Keywords.amazon. apply Forall_take, Forall_filter_bool.
    apply Forall_forall. intros k Hk.
    apply list_elem_of_In, in_map_iff in Hk as (item & <- & _).
    apply itemText_trimmed.
Qed.

(** X5. The Meesho keywords always end with the two tags "Wholesale"
    and "Trending", after at most two keywords taken from the row; so
    [SearchKeywords] on Meesho always ends with "Wholesale, Trending". *)
Theorem meesho_keywords_tags (row : CatalogRow) :
  exists front text,
    keywordTemplates Meesho row = front ++ [str "Wholesale"; str "Trending"]
    /\ length front ≤ 2
    /\ SearchKeywords (generateListing row Meesho) = text ++ str "Wholesale, Trending".
Proof.
  unfold generateListing. cbn [SearchKeywords]. simpl keywordTemplates.
  unfold Keywords.meesho.
  destruct (prop row "category") as [[|c1 s1]|], (prop row "product_name") as [[|c2 s2]|].
  all: try (exists [], []; split; [reflexivity|]; split; [simpl; lia | reflexivity]).
  all: try (exists [c2 :: s2], ((c2 :: s2) ++ str ", ");
            split; [reflexivity|]; split; [simpl; lia|];
            cbn [List.filter truthy map toString join]; rewrite <- !app_assoc; reflexivity).
  all: try (exists [c1 :: s1], ((c1 :: s1) ++ str ", ");
            split; [reflexivity|]; split; [simpl; lia|];
            cbn [List.filter truthy map toString join]; rewrite <- !app_assoc; reflexivity).
  exists [c1 :: s1; c2 :: s2], ((c1 :: s1) ++ str ", " ++ (c2 :: s2) ++ str ", ").
  split; [reflexivity|]. split; [simpl; lia|].
  cbn [List.filter truthy map toString join]. rewrite <- !app_assoc. reflexivity.
Qed.

(** ** Titles that cannot be blank *)

Lemma or_str_nonempty (a : value) (d : jsstring) : d <> [] -> a ||! d <> [].
Proof. destruct a as [[|c s]|]; simpl; congruence. Qed.

Lemma slice0_nonempty {A} (n : nat) (l : list A) : l <> [] -> slice0 (S n) l <> [].
Proof. destruct l; simpl; congruence. Qed.

Lemma app_sep_nonempty {A} (x sep y : list A) : sep <> [] -> x ++ sep ++ y <> [].
Proof.
  intros Hsep Hnil. apply app_eq_nil in Hnil as [_ Hnil].
  apply app_eq_nil in Hnil as [Hnil _]. contradiction.
Qed.

Lemma join_two (sep x y : jsstring) (rest : list jsstring) :
  join sep (x :: y :: rest) = x ++ sep ++ join sep (y :: rest).
Proof. reflexivity. Qed.

(** X6. The title of Amazon, Meesho and Myntra is never the empty
    string, whatever the row: the defaults and the separators see to it.
    The Flipkart title can be: a product name made of blanks is trimmed
    away. *)
Theorem titles_never_blank :
  (forall row, titleTemplates Amazon row <> [])
  /\ (forall row, titleTemplates Meesho row <> [])
  /\ (forall row, titleTemplates Myntra row <> [])
  /\ titleTemplates Flipkart {[ str "product_name" := str " " ]} = [].
Proof.
  split; [|split; [|split]].
  - intros row. simpl. unfold Title.amazon, Title.amazonJoined, Title.amazonParts.
    apply slice0_nonempty.
    pose proof (or_str_nonempty
                  (prop row "brand" ||| prop row "Brand" ||| prop row "vendor")
                  (str "Premium")) as Hbrand.
    pose proof (or_str_nonempty
                  (prop row "product_name" ||| prop row "title" ||| prop row "Name")
                  (str "Product")) as Hname.
    destruct (_ ||! str "Premium") as [|b bs]; [exfalso; apply Hbrand; [key_ne | reflexivity]|].
    destruct (_ ||! str "Product") as [|n ns]; [exfalso; apply Hname; [key_ne | reflexivity]|].
    cbn [List.filter nonempty map]. rewrite join_two.
    apply app_sep_nonempty. key_ne.
  - intros row. simpl. unfold Title.meesho. apply slice0_nonempty.
    apply app_sep_nonempty. key_ne.
  - intros row. simpl. unfold Title.myntra. apply slice0_nonempty.
    apply app_sep_nonempty. key_ne.
  - vm_compute. reflexivity.
Qed.

(** ** The columns that matter *)

Ltac use_columns H :=
  repeat match type of H with
         | Forall _ (_ :: _) =>
             let E := fresh "E" in
             apply Forall_cons_1 in H as [E H]; rewrite ?E; clear E
         end.

Lemma templates_agree (p : ListingPlatform) (r1 r2 : CatalogRow) :
  agreeOn templateColumns r1 r2 ->
  titleTemplates p r1 = titleTemplates p r2
  /\ bulletTemplates p r1 = bulletTemplates p r2
  /\ descriptionTemplates p r1 = descriptionTemplates p r2
  /\ keywordTemplates p r1 = keywordTemplates p r2.
Proof.
  intros H. unfold agreeOn, templateColumns in H.
  destruct p; simpl;
    unfold Title.amazon, Title.amazonJoined, Title.amazonParts, Title.flipkart,
      Title.meesho, Title.myntra,
      Bullets.amazon, Bullets.flipkart, Bullets.meesho, Bullets.meeshoHighlight,
      Bullets.myntra,
      Description.amazon, Description.flipkart, Description.meesho, Description.myntra,
      Keywords.amazon, Keywords.flipkart, Keywords.meesho, Keywords.myntra;
    use_columns H; repeat split; reflexivity.
Qed.

Lemma generateListing_agree (p : ListingPlatform) (r1 r2 : CatalogRow) :
  agreeOn readColumns r1 r2 -> generateListing r1 p = generateListing r2 p.
Proof.
  intros H. unfold agreeOn, readColumns in H. apply Forall_app in H as [Ht Hp].
  destruct (templates_agree p r1 r2 Ht) as (Htitle & Hbullets & Hdescription & Hkeywords).
  unfold generateListing. rewrite Htitle, Hbullets, Hdescription, Hkeywords.
  unfold passthroughColumns in Hp. use_columns Hp. reflexivity.
Qed.

(** X7. Only the columns of [readColumns] matter: setting or removing
    any other column of the row leaves the listing as it is. *)
Theorem unread_columns_ignored (row : CatalogRow) (p : ListingPlatform) (k : jsstring) :
  k ∉ map str readColumns ->
  (forall v, generateListing (<[k := v]> row) p = generateListing row p)
  /\ generateListing (delete k row) p = generateListing row p.
Proof.
  intros Hk.
  assert (Hne : forall c, c ∈ readColumns -> k <> str c).
  { intros c Hc ->. apply Hk. apply list_elem_of_In, in_map, list_elem_of_In, Hc. }
  split; [intros v|]; apply generateListing_agree, Forall_forall; intros c Hc; unfold prop.
  - apply lookup_insert_ne, Hne, Hc.
  - apply lookup_delete_ne, Hne, Hc.
Qed.

(** ** Enriching a record that was enriched before *)

Lemma sku_again (a b c : value) (d : jsstring) :
  a ||| Some (a ||| b ||| c ||! d) ||| c ||! d = a ||| b ||| c ||! d.
Proof.
  destruct a as [[|? ?]|], b as [[|? ?]|], c as [[|? ?]|], d as [|? ?]; reflexivity.
Qed.

Lemma mergeListing_prop_kept (row : CatalogRow) (p : ListingPlatform) (c : string) :
  str c ∉ computedFields -> prop (mergeListing row p) c = prop row c.
Proof. intros Hc. unfold prop. apply mergeListing_fields, Hc. Qed.

Ltac not_computed := apply (bool_decide_unpack _); vm_compute; exact I.

Lemma generateListing_merged (row : CatalogRow) (p q : ListingPlatform) :
  generateListing (mergeListing row p) q = generateListing row q.
Proof.
  assert (Htemplates : agreeOn templateColumns (mergeListing row p) row).
  { apply Forall_forall. intros c Hc. apply mergeListing_prop_kept.
    revert c Hc. apply Forall_forall. unfold templateColumns.
    repeat (apply Forall_cons_2; [not_computed|]). constructor. }
  destruct (templates_agree q _ _ Htemplates) as (Htitle & Hbullets & Hdescription & Hkeywords).
  unfold generateListing. rewrite Htitle, Hbullets, Hdescription, Hkeywords.
  rewrite (mergeListing_prop_kept row p "price"), (mergeListing_prop_kept row p "selling_price"),
    (mergeListing_prop_kept row p "mrp"), (mergeListing_prop_kept row p "sku"),
    (mergeListing_prop_kept row p "Seller SKU"), (mergeListing_prop_kept row p "hsn"),
    (mergeListing_prop_kept row p "hsn_code") by not_computed.
  replace (prop (mergeListing row p) "SKU")
    with (Some (prop row "sku" ||| prop row "SKU" ||| prop row "Seller SKU" ||! str "")).
  - rewrite sku_again. reflexivity.
  - symmetry. unfold prop.
    apply (proj1 (mergeListing_fields row p)).
    unfold listingEntries, generateListing. cbn [SKU].
    apply list_elem_of_In. simpl. tauto.
Qed.

(** X8. Enriching an enriched record gives what enriching the original
    row gives: of the eight computed columns the templates read back only
    [SKU], which falls back to itself.  So a record made for one platform
    can be enriched again, for the same or for another platform, as if
    it were the original row. *)
Theorem enriching_again (row : CatalogRow) (p q : ListingPlatform) :
  generateListing (mergeListing row p) q = generateListing row q
  /\ mergeListing (mergeListing row p) q = mergeListing row q.
Proof.
  split; [apply generateListing_merged|].
  apply map_eq. intros k.
  rewrite (mergeListing_lookup (mergeListing row p) q k), generateListing_merged.
  rewrite (mergeListing_lookup row q k), (mergeListing_lookup row p k).
  destruct (listingObject (generateListing row q) !! k) eqn:Eq; [reflexivity|].
  destruct (listingObject (generateListing row p) !! k) eqn:Ep; [|reflexivity].
  assert (Hk : k ∈ computedFields).
  { apply listingObject_fields with (l := generateListing row p). rewrite Ep. eauto. }
  apply listingObject_fields with (l := generateListing row q) in Hk.
  rewrite Eq in Hk. destruct Hk as [? ?]. discriminate.
Qed.

(** ** Where an output record comes from *)

(** X9. Every record of the output is the merge of one row and one
    platform: the record at index [n] belongs to row [n / P] and to
    platform [n mod P], where [P] is the number of platforms; its
    [Platform] column names that platform. *)
Theorem enrichCatalog_record_origin
    (rows : list CatalogRow) (platforms : list ListingPlatform) (n : nat) (record : CatalogRow) :
  enrichCatalog rows platforms !! n = Some record ->
  exists row platform,
    rows !! (n / length platforms) = Some row
    /\ platforms !! (n mod length platforms) = Some platform
    /\ record = mergeListing row platform
    /\ record !! str "Platform" = Some (platformName platform).
Proof.
  intros Hn. unfold enrichCatalog in Hn.
  pose proof (lookup_lt_Some _ _ _ Hn) as Hlt.
  rewrite (cross_length mergeListing) in Hlt.
  assert (Hp : 0 < length platforms) by (destruct (length platforms); lia).
  assert (Hi : n / length platforms < length rows).
  { apply Nat.Div0.div_lt_upper_bound. lia. }
  assert (Hj : n mod length platforms < length platforms) by (apply Nat.mod_upper_bound; lia).
  destruct (lookup_lt_is_Some_2 _ _ Hi) as [row Hrow].
  destruct (lookup_lt_is_Some_2 _ _ Hj) as [platform Hplatform].
  exists row, platform. split; [exact Hrow|]. split; [exact Hplatform|].
  pose proof (cross_lookup mergeListing rows platforms _ _ _ _ Hrow Hplatform) as Hrec.
  replace (n / length platforms * length platforms + n mod length platforms) with n in Hrec.
  - pose proof (eq_trans (eq_sym Hn) Hrec) as Heq. injection Heq as ->.
    split; [reflexivity|].
    apply (proj1 (mergeListing_fields row platform)).
    apply list_elem_of_In. simpl. tauto.
  - rewrite (Nat.div_mod_eq n (length platforms)) at 1. lia.
Qed.

(** X10. The batch can be cut in pieces: enriching two lists of rows one
    after the other gives the records of the first list followed by
    those of the second. *)
Theorem enrichCatalog_app (rows1 rows2 : list CatalogRow) (platforms : list ListingPlatform) :
  enrichCatalog (rows1 ++ rows2) platforms
    = enrichCatalog rows1 platforms ++ enrichCatalog rows2 platforms.
Proof. unfold enrichCatalog. apply flat_map_app. Qed.

(** ** Rows whose values are trimmed *)

Lemma or_preserves (P : jsstring -> Prop) (a b : value) :
  (forall s, a = Some s -> P s) -> (forall s, b = Some s -> P s) ->
  forall s, a ||| b = Some s -> P s.
Proof. unfold js_or. destruct (truthy a); auto. Qed.

Lemma or_str_preserves (P : jsstring -> Prop) (a : value) (d : jsstring) :
  (forall s, a = Some s -> P s) -> P d -> P (a ||! d).
Proof. destruct a as [[|c s]|]; simpl; auto. Qed.

Lemma amazonParts_trimmed (row : CatalogRow) :
  (forall k v, row !! k = Some v -> trim v = v) ->
  Forall (fun part => trim part = part) (Title.amazonParts row).
Proof.
  intros Hrow.
  assert (Hprop : forall c s, prop row c = Some s -> trim s = s).
  { intros c s. apply Hrow. }
  unfold Title.amazonParts.
  apply Forall_cons_2;
    [|apply Forall_cons_2; [|apply Forall_cons_2; [|apply Forall_cons_2; [|constructor]]]];
    apply (or_str_preserves (fun s => trim s = s)); try reflexivity;
    repeat (apply (or_preserves (fun s => trim s = s)); [|apply Hprop]); apply Hprop.
Qed.

(** X11. On a row whose values are all trimmed, the Amazon title is the
    one the specification words: trimming the parts before or after the
    empty ones are dropped makes no difference there. *)
Theorem amazon_title_on_trimmed_row (row : CatalogRow) :
  (forall k v, row !! k = Some v -> trim v = v) ->
  titleTemplates Amazon row = Spec.titleAmazon row.
Proof.
  intros Hrow. apply amazon_title_as_specified.
  eapply Forall_impl; [apply amazonParts_trimmed, Hrow|].
  intros part Hpart Hne. rewrite Hpart. exact Hne.
Qed.

Example splitNonWord_note :
  Home.splitNonWord (str "Listings prepared for Amazon, Flipkart.")
    = [str "Listings"; str "prepared"; str "for"; str "Amazon"; str "Flipkart"; str ""].
Proof. vm_compute. reflexivity. Qed.

Example splitNonWord_edges :
  Home.splitNonWord (str "  a--b ") = [str ""; str "a"; str "b"; str ""]
  /\ Home.splitNonWord (str "") = [str ""].
Proof. split; vm_compute; reflexivity. Qed.

Example numberToString_examples :
  CatalogAssistant.numberToString 0 = str "0" /\ CatalogAssistant.numberToString 120 = str "120".
Proof. split; vm_compute; reflexivity. Qed.

(** ** The platform selection *)

Lemma filter_other_NoDup (p : ListingPlatform) (l : list ListingPlatform) :
  NoDup l -> NoDup (List.filter (fun item => negb (bool_decide (item = p))) l).
Proof.
  induction 1 as [|x l Hx _ IH]; simpl; [constructor|].
  destruct (negb (bool_decide (x = p))); [|exact IH].
  constructor; [|exact IH].
  intros Hin. apply Hx. apply list_elem_of_In, filter_In in Hin as [Hin _].
  apply list_elem_of_In, Hin.
Qed.

Lemma elem_of_filter_other (p q : ListingPlatform) (l : list ListingPlatform) :
  q ∈ List.filter (fun item => negb (bool_decide (item = p))) l <-> q ∈ l /\ q <> p.
Proof.
  rewrite !list_elem_of_In, filter_In, negb_true_iff, bool_decide_eq_false. reflexivity.
Qed.

Lemma filter_other_absent (p : ListingPlatform) (l : list ListingPlatform) :
  p ∉ l -> List.filter (fun item => negb (bool_decide (item = p))) l = l.
Proof.
  induction l as [|x l IH]; intros Hp; simpl; [reflexivity|].
  apply not_elem_of_cons in Hp as [Hne Hp].
  rewrite bool_decide_eq_false_2 by congruence. simpl. rewrite IH by exact Hp. reflexivity.
Qed.

Lemma togglePlatform_elem (p q : ListingPlatform) (prev : list ListingPlatform) :
  q ∈ CatalogAssistant.togglePlatform p prev
  <-> (q = p /\ p ∉ prev) \/ (q <> p /\ q ∈ prev).
Proof.
  unfold CatalogAssistant.togglePlatform. case_bool_decide as Hp.
  - rewrite elem_of_filter_other. split.
    + intros [Hq Hne]. right. split; assumption.
    + intros [[-> Hnot]|[Hne Hq]]; [contradiction | split; assumption].
  - rewrite elem_of_app, list_elem_of_singleton. split.
    + intros [Hq| ->]; [right; split; [congruence | exact Hq] | left; split; [reflexivity | exact Hp]].
    + intros [[-> _]|[_ Hq]]; [right; reflexivity | left; exact Hq].
Qed.

Lemma togglePlatform_NoDup (p : ListingPlatform) (prev : list ListingPlatform) :
  NoDup prev -> NoDup (CatalogAssistant.togglePlatform p prev).
Proof.
  intros Hprev. unfold CatalogAssistant.togglePlatform. case_bool_decide as Hp.
  - apply filter_other_NoDup, Hprev.
  - apply NoDup_app. split; [exact Hprev|]. split; [|apply NoDup_singleton].
    intros x Hx Hx'. apply list_elem_of_singleton in Hx' as ->. contradiction.
Qed.

Lemma platforms_NoDup_length (l : list ListingPlatform) : NoDup l -> length l ≤ 4.
Proof.
  intros Hl.
  change 4 with (length CatalogAssistant.DEFAULT_PLATFORMS).
  apply submseteq_length, NoDup_submseteq; [exact Hl|].
  intros [] _; unfold CatalogAssistant.DEFAULT_PLATFORMS; set_solver.
Qed.

(** X12. Toggling a platform flips whether it is selected and leaves
    every other platform as it was; a platform that was not selected is
    added at the end, and toggling it once more gives the selection
    back. *)
Theorem togglePlatform_flips (p : ListingPlatform) (prev : list ListingPlatform) :
  (p ∈ CatalogAssistant.togglePlatform p prev <-> p ∉ prev)
  /\ (forall q, q <> p -> (q ∈ CatalogAssistant.togglePlatform p prev <-> q ∈ prev))
  /\ (p ∉ prev ->
      CatalogAssistant.togglePlatform p prev = prev ++ [p]
      /\ CatalogAssistant.togglePlatform p (CatalogAssistant.togglePlatform p prev) = prev).
Proof.
  split; [|split].
  - rewrite togglePlatform_elem. split.
    + intros [[_ H]|[H _]]; [exact H | congruence].
    + intros H. left. split; [reflexivity | exact H].
  - intros q Hq. rewrite togglePlatform_elem. split.
    + intros [[H _]|[_ H]]; [congruence | exact H].
    + intros H. right. split; assumption.
  - intros Hp.
    assert (Hfirst : CatalogAssistant.togglePlatform p prev = prev ++ [p]).
    { unfold CatalogAssistant.togglePlatform. rewrite bool_decide_eq_false_2 by exact Hp.
      reflexivity. }
    split; [exact Hfirst|]. rewrite Hfirst.
    unfold CatalogAssistant.togglePlatform.
    rewrite bool_decide_eq_true_2 by (apply elem_of_app; right; apply list_elem_of_singleton; reflexivity).
    rewrite List.filter_app, filter_other_absent by exact Hp.
    simpl. rewrite bool_decide_eq_true_2 by reflexivity. simpl. apply app_nil_r.
Qed.

(** X13. Whatever platforms are toggled, in whatever order, starting
    from the default selection: no platform is ever selected twice, so
    the selection has at most four platforms and a generation returns at
    most four records for each row. *)
Theorem selection_stays_distinct (toggles : list ListingPlatform) (rows : list CatalogRow) :
  let selection :=
    foldl (fun prev p => CatalogAssistant.togglePlatform p prev)
      CatalogAssistant.DEFAULT_PLATFORMS toggles in
  NoDup selection
  /\ length selection ≤ 4
  /\ length (enrichCatalog rows selection) ≤ 4 * length rows.
Proof.
  intros selection.
  assert (Hnd : NoDup selection).
  { unfold selection. generalize CatalogAssistant.DEFAULT_PLATFORMS,
      (ltac:(unfold CatalogAssistant.DEFAULT_PLATFORMS; apply (bool_decide_unpack _); vm_compute; exact I)
        : NoDup CatalogAssistant.DEFAULT_PLATFORMS).
    induction toggles as [|p toggles IH]; intros l Hl; simpl; [exact Hl|].
    apply IH, togglePlatform_NoDup, Hl. }
  pose proof (platforms_NoDup_length selection Hnd) as Hlen.
  split; [exact Hnd|]. split; [exact Hlen|].
  unfold enrichCatalog. rewrite (cross_length mergeListing). nia.
Qed.

(** ** The rows the loader keeps *)

Lemma fromEntries_elem (entries : list (jsstring * jsstring)) (k v : jsstring) :
  CatalogAssistant.fromEntries entries !! k = Some v -> (k, v) ∈ entries.
Proof.
  unfold CatalogAssistant.fromEntries.
  assert (Hgen : forall acc : CatalogRow,
            foldl (fun o kv => <[kv.1 := kv.2]> o) acc entries !! k = Some v ->
            (k, v) ∈ entries \/ acc !! k = Some v).
  { induction entries as [|[k' v'] entries IH]; intros acc Hk; simpl in *.
    - right. exact Hk.
    - destruct (IH _ Hk) as [Hin|Hacc].
      + left. right. exact Hin.
      + destruct (decide (k' = k)) as [->|Hne].
        * rewrite lookup_insert_eq in Hacc. injection Hacc as ->. left. left.
        * rewrite lookup_insert_ne in Hacc by exact Hne. right. exact Hacc. }
  intros Hk. destruct (Hgen ∅ Hk) as [Hin|Hempty]; [exact Hin|].
  rewrite lookup_empty in Hempty. discriminate.
Qed.

Lemma cellText_trimmed (v : value) : trim (CatalogAssistant.cellText v) = CatalogAssistant.cellText v.
Proof. destruct v as [s|]; simpl; [apply trim_trim | reflexivity]. Qed.

Lemma cleanRow_trimmed (row : CatalogAssistant.ParsedRow) (k v : jsstring) :
  CatalogAssistant.cleanRow row !! k = Some v -> trim k = k /\ trim v = v.
Proof.
  intros Hk. apply fromEntries_elem in Hk.
  apply list_elem_of_In, in_map_iff in Hk as ([k0 v0] & Heq & _).
  injection Heq as <- <-. split; [apply trim_trim | apply cellText_trimmed].
Qed.

Lemma hasValue_true (row : CatalogRow) :
  CatalogAssistant.hasValue row = true <-> exists k v, row !! k = Some v /\ v <> [].
Proof.
  unfold CatalogAssistant.hasValue. rewrite existsb_exists. split.
  - intros (v & Hin & Hv). apply in_map_iff in Hin as ([k v'] & <- & Hin).
    apply list_elem_of_In, elem_of_map_to_list in Hin.
    exists k, v'. split; [exact Hin|]. destruct v'; simpl in *; congruence.
  - intros (k & v & Hk & Hv). exists v. split.
    + apply in_map_iff. exists (k, v). split; [reflexivity|].
      apply list_elem_of_In, elem_of_map_to_list, Hk.
    + destruct v; simpl; congruence.
Qed.

(** X14. What the loader keeps is clean: in every row it stores, each
    column name and each value is trimmed and at least one value is not
    empty; rows are only ever dropped, never added. *)
Theorem parsedRows_clean (data : option (list CatalogAssistant.ParsedRow)) :
  Forall (fun row =>
            (forall k v, row !! k = Some v -> trim k = k /\ trim v = v)
            /\ exists k v, row !! k = Some v /\ v <> [])
    (CatalogAssistant.parsedRows data)
  /\ length (CatalogAssistant.parsedRows data) ≤ length (default [] data).
Proof.
  destruct data as [rows|]; simpl; [|split; [constructor | lia]].
  split.
  - apply Forall_forall. intros row Hrow.
    apply list_elem_of_In, filter_In in Hrow as [Hin Hvalue].
    apply in_map_iff in Hin as (parsed & <- & _).
    split; [apply cleanRow_trimmed | apply hasValue_true, Hvalue].
  - etransitivity; [apply filter_bool_length|]. rewrite length_map. lia.
Qed.

(** X15. For every row the loader stores, the Amazon title is the one
    the specification words: a part made of blanks only cannot reach the
    templates through the loader. *)
Theorem parsedRows_amazon_title
    (data : option (list CatalogAssistant.ParsedRow)) (row : CatalogRow) :
  row ∈ CatalogAssistant.parsedRows data ->
  titleTemplates Amazon row = Spec.titleAmazon row.
Proof.
  intros Hrow. destruct data as [rows|]; simpl in Hrow; [|inversion Hrow].
  apply list_elem_of_In, filter_In in Hrow as [Hin _].
  apply in_map_iff in Hin as (parsed & <- & _).
  apply amazon_title_as_specified.
  eapply Forall_impl.
  - apply amazonParts_trimmed. intros k v Hk. exact (proj2 (cleanRow_trimmed parsed k v Hk)).
  - intros part Hpart Hne. rewrite Hpart. exact Hne.
Qed.

(** ** Generating *)



(** ** The mission feed *)

Lemma addIntel_absorbs (message : jsstring) (feed : list jsstring) :
  Home.addIntel message (slice0 12 feed) = Home.addIntel message feed.
Proof.
  unfold Home.addIntel, slice0. cbn [take]. rewrite take_take. reflexivity.
Qed.

(** X17. The feed holds the twelve newest messages, newest first: after
    any number of [addIntel] calls on a feed of at most twelve entries
    it is the first twelve of the messages in reverse order followed by
    the old feed. *)
Theorem addIntel_keeps_newest (messages feed : list jsstring) :
  length feed ≤ 12 ->
  foldl (fun prev message => Home.addIntel message prev) feed messages
    = slice0 12 (reverse messages ++ feed)
  /\ length (foldl (fun prev message => Home.addIntel message prev) feed messages) ≤ 12.
Proof.
  intros Hfeed.
  assert (Heq : foldl (fun prev message => Home.addIntel message prev) feed messages
                = slice0 12 (reverse messages ++ feed)).
  { induction messages as [|message messages IH] using rev_ind.
    - rewrite reverse_nil. unfold slice0. rewrite take_ge by exact Hfeed. reflexivity.
    - rewrite foldl_app. simpl. rewrite IH, addIntel_absorbs.
      rewrite reverse_app. reflexivity. }
  split; [exact Heq|]. rewrite Heq. apply length_slice0.
Qed.

(** ** Reading the platforms back from a progress note *)

Lemma splitRuns_word_start (b : bool) (c : N) (s : jsstring) :
  Home.isWord c = true -> Home.splitRuns b (c :: s) = Home.splitRuns false (c :: s).
Proof. intros Hc. simpl. rewrite Hc. reflexivity. Qed.

Lemma splitRuns_word (word : jsstring) (c : N) (rest : jsstring) :
  Forall (fun x => Home.isWord x = true) word -> Home.isWord c = false ->
  Home.splitRuns false (word ++ c :: rest) = word :: Home.splitRuns true rest.
Proof.
  intros Hword Hc. induction Hword as [|x word Hx _ IH]; simpl.
  - rewrite Hc. reflexivity.
  - rewrite Hx, IH. reflexivity.
Qed.

Lemma splitRuns_word_any (b : bool) (word : jsstring) (c : N) (rest : jsstring) :
  Forall (fun x => Home.isWord x = true) word -> word <> [] -> Home.isWord c = false ->
  Home.splitRuns b (word ++ c :: rest) = word :: Home.splitRuns true rest.
Proof.
  intros Hword Hne Hc. rewrite <- (splitRuns_word word c rest Hword Hc).
  destruct Hword as [|x word Hx _]; [congruence|].
  apply splitRuns_word_start, Hx.
Qed.

Lemma splitRuns_last_word (b : bool) (word : jsstring) :
  Forall (fun x => Home.isWord x = true) word -> Home.splitRuns b word = [word].
Proof.
  intros Hword. revert b. induction Hword as [|x word Hx _ IH]; intros b; simpl.
  - reflexivity.
  - rewrite Hx, IH. reflexivity.
Qed.

Lemma platformName_word (p : ListingPlatform) :
  Forall (fun x => Home.isWord x = true) (platformName p)
  /\ exists c s, platformName p = c :: s /\ Home.isWord c = true.
Proof.
  destruct p; (split; [repeat constructor | eexists _, _; split; reflexivity]).
Qed.

Lemma splitRuns_name (b : bool) (p : ListingPlatform) (c : N) (rest : jsstring) :
  Home.isWord c = false ->
  Home.splitRuns b (platformName p ++ c :: rest) = platformName p :: Home.splitRuns true rest.
Proof.
  intros Hc. destruct (platformName_word p) as (Hword & x & s & Hname & Hx).
  rewrite <- (splitRuns_word (platformName p) c rest Hword Hc).
  rewrite Hname. apply splitRuns_word_start, Hx.
Qed.

Lemma splitRuns_names (platforms : list ListingPlatform) :
  Home.splitRuns true (join (str ", ") (map platformName platforms) ++ str ".")
    = map platformName platforms ++ [[]].
Proof.
  induction platforms as [|p platforms IH]; [reflexivity|].
  destruct platforms as [|q platforms].
  - exact (splitRuns_name true p 46%N [] eq_refl).
  - change (join (str ", ") (map platformName (p :: q :: platforms)) ++ str ".")
      with ((platformName p ++ 44%N :: 32%N :: join (str ", ") (map platformName (q :: platforms)))
              ++ str ".").
    rewrite <- app_assoc. cbn [app].
    rewrite (splitRuns_name true p 44%N _ eq_refl).
    change (Home.splitRuns true (32%N :: ?s)) with (Home.splitRuns true s).
    rewrite IH. reflexivity.
Qed.

Lemma omap_cons_Some {A B} (f : A -> option B) (x : A) (y : B) (l : list A) :
  f x = Some y -> omap f (x :: l) = y :: omap f l.
Proof. intros Hx. simpl. rewrite Hx. reflexivity. Qed.

Lemma platformOfName_name (p : ListingPlatform) :
  Home.platformOfName (trim (platformName p)) = Some p.
Proof. destruct p; vm_compute; reflexivity. Qed.

Lemma platformMatches_note (platforms : list ListingPlatform) :
  Home.platformMatches
    (str "Listings prepared for " ++ join (str ", ") (map platformName platforms) ++ str ".")
    = platforms.
Proof.
  unfold Home.platformMatches, Home.splitNonWord.
  change (str "Listings prepared for " ++ ?t)
    with (str "Listings" ++ 32%N :: (str "prepared" ++ 32%N :: (str "for" ++ 32%N :: t))).
  rewrite !splitRuns_word_any by first [reflexivity | key_ne | repeat constructor].
  rewrite splitRuns_names.
  change (omap Home.platformOfName
            (map trim (str "Listings" :: str "prepared" :: str "for"
                         :: map platformName platforms ++ [[]])) = platforms).
  cbn [map]. 
  replace (omap Home.platformOfName
             (trim (str "Listings") :: trim (str "prepared") :: trim (str "for")
                :: map trim (map platformName platforms ++ [[]])))
    with (omap Home.platformOfName (map trim (map platformName platforms ++ [[]])))
    by (vm_compute (trim (str _)); reflexivity).
  induction platforms as [|p platforms IH]; [reflexivity|].
  cbn [map app]. rewrite (omap_cons_Some _ _ _ _ (platformOfName_name p)), IH. reflexivity.
Qed.

Lemma fromSet_elem (x : ListingPlatform) (a : list ListingPlatform) :
  x ∈ Home.fromSet a <-> x ∈ a.
Proof.
  induction a as [|y a IH]; simpl; [reflexivity|].
  rewrite !elem_of_cons, elem_of_filter_other, IH.
  destruct (decide (x = y)); tauto.
Qed.

Lemma fromSet_NoDup (a : list ListingPlatform) : NoDup (Home.fromSet a).
Proof.
  induction a as [|y a IH]; simpl; constructor.
  - rewrite elem_of_filter_other. tauto.
  - apply filter_other_NoDup, IH.
Qed.

(** X18. The progress note of a generation names the platforms it was
    made for: split on non-word characters and filtered as the page does
    it, the note gives back exactly the selected platforms, in order; so
    the page adds every one of them to its active platforms. *)
Theorem progress_note_round_trip (s : CatalogAssistant.State) (prev : list ListingPlatform) :
  Forall (fun note =>
            Home.platformMatches note = CatalogAssistant.platforms s
            /\ forall p, p ∈ CatalogAssistant.platforms s -> p ∈ Home.onProgress note prev)
    (CatalogAssistant.handleGenerate s).2.
Proof.
  unfold CatalogAssistant.handleGenerate.
  case_bool_decide as Hrows; [constructor|].
  case_bool_decide as Hplatforms; [constructor|].
  cbn [snd]. constructor; [|constructor].
  split; [apply platformMatches_note|].
  intros p Hp. unfold Home.onProgress. rewrite platformMatches_note.
  rewrite bool_decide_eq_false_2 by exact Hplatforms.
  apply fromSet_elem, elem_of_app. right. exact Hp.
Qed.

(** X19. A progress note never removes an active platform and never
    makes one appear twice. *)
Theorem onProgress_grows (update : jsstring) (prev : list ListingPlatform) :
  (forall p, p ∈ prev -> p ∈ Home.onProgress update prev)
  /\ (NoDup prev -> NoDup (Home.onProgress update prev))
  /\ (forall p, p ∈ Home.onProgress update prev
                <-> p ∈ prev \/ p ∈ Home.platformMatches update).
Proof.
  unfold Home.onProgress. case_bool_decide as Hnone.
  - apply length_zero_iff_nil in Hnone. rewrite Hnone.
    split; [auto|]. split; [auto|]. intros p. rewrite elem_of_nil. tauto.
  - split; [|split].
    + intros p Hp. apply fromSet_elem, elem_of_app. left. exact Hp.
    + intros _. apply fromSet_NoDup.
    + intros p. rewrite fromSet_elem, elem_of_app. reflexivity.
Qed.

(** ** Reading the bullets back from [BulletPoints] *)

Lemma split_free (sep : N -> bool) (s : jsstring) :
  Forall (fun c => sep c = false) s -> split sep s = [s].
Proof.
  induction 1 as [|c s Hc _ IH]; simpl; [reflexivity|].
  rewrite Hc, IH. reflexivity.
Qed.

Lemma split_at (sep : N -> bool) (piece : jsstring) (c : N) (rest : jsstring) :
  Forall (fun x => sep x = false) piece -> sep c = true ->
  split sep (piece ++ c :: rest) = piece :: split sep rest.
Proof.
  intros Hpiece Hc. induction Hpiece as [|x piece Hx _ IH]; simpl.
  - rewrite Hc. reflexivity.
  - rewrite Hx, IH. reflexivity.
Qed.

Lemma split_pieces_free (sep : N -> bool) (s : jsstring) :
  Forall (Forall (fun c => sep c = false)) (split sep s).
Proof.
  induction s as [|c s IH]; simpl.
  - repeat constructor.
  - destruct (sep c) eqn:Hc.
    + constructor; [constructor | exact IH].
    + destruct (split sep s) as [|piece rest]; inversion IH; subst;
        repeat constructor; assumption.
Qed.

Lemma trimStart_Forall (P : N -> Prop) (s : jsstring) : Forall P s -> Forall P (trimStart s).
Proof.
  induction 1 as [|c s Hc Hs IH]; simpl; [constructor|].
  destruct (is_white c); [exact IH | constructor; assumption].
Qed.

Lemma trim_Forall (P : N -> Prop) (s : jsstring) : Forall P s -> Forall P (trim s).
Proof.
  intros Hs. unfold trim, trimEnd.
  apply Forall_reverse, trimStart_Forall, Forall_reverse, trimStart_Forall, Hs.
Qed.

Lemma trimStart_pad (pad s : jsstring) :
  Forall (fun c => is_white c = true) pad -> trimStart (pad ++ s) = trimStart s.
Proof. induction 1 as [|c pad Hc _ IH]; simpl; [reflexivity|]. rewrite Hc. exact IH. Qed.

Lemma trimEnd_pad (s pad : jsstring) :
  Forall (fun c => is_white c = true) pad -> trimEnd (s ++ pad) = trimEnd s.
Proof.
  intros Hpad. unfold trimEnd. rewrite reverse_app, trimStart_pad; [reflexivity|].
  apply Forall_reverse, Hpad.
Qed.

Lemma trim_padded (before s after : jsstring) :
  Forall (fun c => is_white c = true) before ->
  Forall (fun c => is_white c = true) after ->
  trim (before ++ s ++ after) = trim s.
Proof.
  intros Hbefore Hafter. unfold trim. rewrite (trimStart_pad before _ Hbefore).
  destruct (trimStart_blanks s) as (blanks & Hs & Hblanks).
  rewrite Hs at 1. rewrite <- app_assoc, (trimStart_pad blanks _ Hblanks).
  destruct (trimStart s) as [|c t] eqn:E.
  - simpl. rewrite (trimStart_white after Hafter). reflexivity.
  - pose proof (trimStart_startsClean s) as Hclean. rewrite E in Hclean.
    rewrite (trimStart_id ((c :: t) ++ after)) by exact Hclean.
    apply trimEnd_pad, Hafter.
Qed.

Lemma join_bar_split (pad : jsstring) (bullets : list jsstring) :
  Forall (fun c => is_white c = true) pad ->
  Forall (fun c => sep_bar c = false) pad ->
  Forall (fun bullet => trim bullet = bullet) bullets ->
  Forall (Forall (fun c => sep_bar c = false)) bullets ->
  bullets <> [] ->
  map trim (split sep_bar (pad ++ join (str " | ") bullets)) = bullets.
Proof.
  intros Hwhite Hfree Htrimmed Hbars. revert pad Hwhite Hfree.
  induction Htrimmed as [|bullet bullets Hbullet _ IH]; intros pad Hwhite Hfree Hne;
    [congruence|].
  inversion Hbars as [|? ? Hbar Hrest]; subst.
  destruct bullets as [|next bullets].
  - simpl join. rewrite split_free by (apply Forall_app; split; assumption).
    simpl. f_equal. rewrite <- (app_nil_r bullet) at 1.
    rewrite (trim_padded pad bullet [] Hwhite); [exact Hbullet | constructor].
  - change (pad ++ join (str " | ") (bullet :: next :: bullets))
      with (pad ++ bullet ++ 32%N :: 124%N :: ([32%N] ++ join (str " | ") (next :: bullets))).
    replace (pad ++ bullet ++ 32%N :: 124%N :: ([32%N] ++ join (str " | ") (next :: bullets)))
      with ((pad ++ bullet ++ [32%N]) ++ 124%N :: ([32%N] ++ join (str " | ") (next :: bullets)))
      by (rewrite <- !app_assoc; reflexivity).
    rewrite split_at; [|repeat (apply Forall_app; split); try assumption; repeat constructor
                       |reflexivity].
    cbn [map]. f_equal.
    + rewrite (trim_padded pad bullet [32%N] Hwhite); [exact Hbullet | repeat constructor].
    + apply IH; [exact Hrest | repeat constructor.. | discriminate].
Qed.

Lemma filter_nonempty_all (l : list jsstring) :
  Forall (fun s => s <> []) l -> List.filter nonempty l = l.
Proof.
  induction 1 as [|s l Hs _ IH]; simpl; [reflexivity|].
  destruct s; [congruence|]. simpl. rewrite IH. reflexivity.
Qed.

Lemma bullets_read_back (bullets : list jsstring) :
  Forall (fun bullet => bullet <> []) bullets ->
  Forall (fun bullet => trim bullet = bullet) bullets ->
  Forall (Forall (fun c => sep_bar c = false)) bullets ->
  List.filter nonempty (map trim (split sep_bar (join (str " | ") bullets))) = bullets.
Proof.
  intros Hne Htrimmed Hbars. destruct bullets as [|bullet bullets]; [reflexivity|].
  pose proof (join_bar_split [] (bullet :: bullets)) as Hsplit. cbn [app] in Hsplit.
  rewrite Hsplit; try assumption; try constructor; [|discriminate].
  apply filter_nonempty_all, Hne.
Qed.

Lemma pieces_bar_free (sep : N -> bool) (s : jsstring) :
  (forall c, sep_bar c = true -> sep c = true) ->
  Forall (Forall (fun c => sep_bar c = false)) (map trim (split sep s)).
Proof.
  intros Hsep. apply Forall_forall. intros piece Hpiece.
  apply list_elem_of_In, in_map_iff in Hpiece as (raw & <- & Hraw).
  apply trim_Forall.
  pose proof (split_pieces_free sep s) as Hfree. rewrite Forall_forall in Hfree.
  eapply Forall_impl; [apply Hfree, list_elem_of_In, Hraw|].
  intros c Hc. destruct (sep_bar c) eqn:Hbar; [|reflexivity].
  pose proof (Hsep c Hbar) as Hs. simpl in Hc. congruence.
Qed.

(** X20. On Flipkart and Meesho the bullets can be read back from
    [BulletPoints]: cutting the string at the bars, trimming the pieces
    and dropping the empty ones gives the bullets again, because no
    bullet of these platforms holds a bar, is empty or has white space
    at either end. *)
Theorem bullet_points_read_back (row : CatalogRow) :
  List.filter nonempty
    (map trim (split sep_bar (BulletPoints (generateListing row Flipkart))))
    = bulletTemplates Flipkart row
  /\ List.filter nonempty
       (map trim (split sep_bar (BulletPoints (generateListing row Meesho))))
     = bulletTemplates Meesho row.
Proof.
  assert (Hbar : forall c, sep_bar c = true -> sep_sentence c = true /\ sep_feature c = true).
  { intros c Hc. apply N.eqb_eq in Hc as ->. split; reflexivity. }
  split; cbn [generateListing BulletPoints]; apply bullets_read_back.
  - apply bullets_nonempty.
  - apply flipkart_bullets_trimmed.
  - simpl. unfold Bullets.flipkart. apply Forall_take, Forall_filter_bool, pieces_bar_free.
    intros c Hc. apply Hbar, Hc.
  - apply bullets_nonempty.
  - apply meesho_bullets_trimmed.
  - simpl. unfold Bullets.meesho. destruct (nonempty _); cbn [negb].
    + apply Forall_take, Forall_filter_bool, pieces_bar_free. intros c Hc. apply Hbar, Hc.
    + repeat constructor.
Qed.

(** ** The note of a loaded sheet *)

Lemma digits_word (d : Decimal.uint) :
  Forall (fun c => Home.isWord c = true /\ is_white c = false /\ (c <? 65)%N = true)
    (CatalogAssistant.digits d).
Proof. induction d; simpl; constructor; try assumption; repeat split. Qed.

Lemma platformOfName_number (s : jsstring) :
  Forall (fun c => (c <? 65)%N = true) s -> Home.platformOfName s = None.
Proof.
  intros Hs. unfold Home.platformOfName.
  repeat (case_bool_decide as Hname;
          [rewrite Hname in Hs; inversion Hs as [|? ? Hc _]; discriminate Hc | clear Hname]).
  reflexivity.
Qed.

Lemma number_pieces (number : jsstring) (rest : jsstring) :
  Forall (fun c => Home.isWord c = true /\ is_white c = false /\ (c <? 65)%N = true) number ->
  omap Home.platformOfName (map trim (Home.splitRuns true (number ++ 32%N :: rest)))
    = omap Home.platformOfName (map trim (Home.splitRuns true rest)).
Proof.
  intros Hnumber. destruct number as [|c number].
  - reflexivity.
  - rewrite splitRuns_word_any;
      [|eapply Forall_impl; [exact Hnumber|]; intros x Hx; apply Hx|discriminate|reflexivity].
    cbn [map]. simpl omap. rewrite platformOfName_number; [reflexivity|].
    apply trim_Forall. eapply Forall_impl; [exact Hnumber|]. intros x Hx. apply Hx.
Qed.

(** X21. Loading a sheet does not touch the active platforms of the
    page: the note "Catalog sheet loaded with N items." names no
    platform, whatever the number of rows. *)
Theorem load_note_names_no_platform
    (data : option (list CatalogAssistant.ParsedRow)) (s : CatalogAssistant.State)
    (prev : list ListingPlatform) :
  Forall (fun note => Home.platformMatches note = [] /\ Home.onProgress note prev = prev)
    (CatalogAssistant.handleFileComplete data s).2.
Proof.
  unfold CatalogAssistant.handleFileComplete. cbn [snd].
  constructor; [|constructor].
  assert (Hnone : Home.platformMatches
                    (str "Catalog sheet loaded with "
                       ++ CatalogAssistant.numberToString
                            (length (CatalogAssistant.parsedRows data))
                       ++ str " items.") = []).
  { unfold Home.platformMatches, Home.splitNonWord, CatalogAssistant.numberToString.
    generalize (digits_word (Nat.to_uint (length (CatalogAssistant.parsedRows data)))).
    generalize (CatalogAssistant.digits (Nat.to_uint (length (CatalogAssistant.parsedRows data)))).
    intros number Hnumber.
    change (str "Catalog sheet loaded with " ++ number ++ str " items.")
      with (str "Catalog" ++ 32%N :: (str "sheet" ++ 32%N :: (str "loaded" ++ 32%N
              :: (str "with" ++ 32%N :: (number ++ 32%N :: str "items."))))).
    rewrite !splitRuns_word_any by first [reflexivity | key_ne | repeat constructor].
    change (omap Home.platformOfName
              (map trim (Home.splitRuns true (number ++ 32%N :: str "items."))) = []).
    rewrite (number_pieces number _ Hnumber). vm_compute. reflexivity. }
  split; [exact Hnone|].
  unfold Home.onProgress. rewrite Hnone. reflexivity.
Qed.

Lemma amazon_sentences_lead_witness :
  bulletTemplates Amazon cottonRow !! 0 = Some (str "Crafted from " ++ str "cotton" ++ str ".")
  /\ bulletTemplates Amazon cottonRow !! (if truthy (prop cottonRow "material") then 1 else 0)
     = Some (str "Ideal for " ++ str "summer" ++ str ".").
Proof.
  destruct (amazon_sentences_lead cottonRow) as [Hmaterial Husage]. split.
  - apply Hmaterial; [vm_compute; reflexivity | discriminate].
  - apply Husage; [vm_compute; reflexivity | discriminate].
Defined.

Lemma unread_columns_ignored_witness :
  generateListing (<[str "warehouse" := str "B7"]> acmeRow) Myntra = generateListing acmeRow Myntra
  /\ generateListing (delete (str "warehouse") acmeRow) Myntra = generateListing acmeRow Myntra.
Proof.
  destruct (unread_columns_ignored acmeRow Myntra (str "warehouse")) as [Hset Hdel].
  - apply (bool_decide_unpack _). vm_compute. exact I.
  - split; [apply Hset | exact Hdel].
Defined.

Lemma enrichCatalog_record_origin_witness :
  exists row platform,
    [∅; acmeRow] !! (3 / length [Meesho; Amazon]) = Some row
    /\ [Meesho; Amazon] !! (3 mod length [Meesho; Amazon]) = Some platform
    /\ mergeListing acmeRow Amazon = mergeListing row platform
    /\ mergeListing acmeRow Amazon !! str "Platform" = Some (platformName platform).
Proof.
  apply (enrichCatalog_record_origin [∅; acmeRow] [Meesho; Amazon] 3).
  reflexivity.
Defined.

Lemma amazon_title_on_trimmed_row_witness :
  titleTemplates Amazon trimmedRow = Spec.titleAmazon trimmedRow.
Proof.
  apply amazon_title_on_trimmed_row.
  intros k v Hk. unfold trimmedRow in Hk.
  apply lookup_singleton_Some in Hk as [_ <-]. vm_compute. reflexivity.
Defined.

Lemma togglePlatform_flips_witness :
  (Meesho ∈ CatalogAssistant.togglePlatform Amazon [Meesho] <-> Meesho ∈ [Meesho])
  /\ CatalogAssistant.togglePlatform Amazon [Meesho] = [Meesho] ++ [Amazon]
  /\ CatalogAssistant.togglePlatform Amazon (CatalogAssistant.togglePlatform Amazon [Meesho])
     = [Meesho].
Proof.
  destruct (togglePlatform_flips Amazon [Meesho]) as (_ & Hothers & Habsent).
  split.
  - apply Hothers. discriminate.
  - apply Habsent. apply (bool_decide_unpack _). vm_compute. exact I.
Defined.

Lemma parsedRows_amazon_title_witness :
  titleTemplates Amazon (CatalogAssistant.cleanRow [(str " brand ", Some (str " Acme "))])
    = Spec.titleAmazon (CatalogAssistant.cleanRow [(str " brand ", Some (str " Acme "))]).
Proof.
  apply (parsedRows_amazon_title paddedSheet).
  apply list_elem_of_In. vm_compute. left. reflexivity.
Defined.

Lemma addIntel_keeps_newest_witness :
  foldl (fun prev message => Home.addIntel message prev) [str "ready"] [str "a"; str "b"]
    = slice0 12 (reverse [str "a"; str "b"] ++ [str "ready"])
  /\ length (foldl (fun prev message => Home.addIntel message prev) [str "ready"]
               [str "a"; str "b"]) ≤ 12.
Proof. apply addIntel_keeps_newest. simpl. lia. Defined.

Lemma onProgress_grows_witness :
  Myntra ∈ Home.onProgress (str "Listings prepared for Amazon.") [Myntra]
  /\ NoDup (Home.onProgress (str "Listings prepared for Amazon.") [Myntra]).
Proof.
  destruct (onProgress_grows (str "Listings prepared for Amazon.") [Myntra])
    as (Hkept & Hdistinct & _).
  split.
  - apply Hkept. apply list_elem_of_singleton. reflexivity.
  - apply Hdistinct. apply NoDup_singleton.
Defined.

Lemma parsedRows_clean_witness :
  trim (str "brand") = str "brand" /\ trim (str "Acme") = str "Acme".
Proof.
  destruct (parsedRows_clean paddedSheet) as [Hclean _].
  rewrite Forall_forall in Hclean.
  destruct (Hclean (CatalogAssistant.cleanRow [(str " brand ", Some (str " Acme "))]))
    as [Htrimmed _].
  - apply list_elem_of_In. vm_compute. left. reflexivity.
  - apply Htrimmed. vm_compute. reflexivity.
Defined.

Lemma progress_note_round_trip_witness :
  Forall (fun note => Meesho ∈ Home.onProgress note [Myntra])
    (CatalogAssistant.handleGenerate readyState).2.
Proof.
  eapply Forall_impl; [apply (progress_note_round_trip readyState [Myntra])|].
  intros note [_ Hadded]. apply Hadded.
  apply (bool_decide_unpack _). vm_compute. exact I.
Defined.

Example removeCreate_examples :
  trim (VoiceAgent.removeCreate (str "Create task compile Flipkart price updates"))
    = str "compile Flipkart price updates"
  /\ trim (VoiceAgent.removeCreate (str "ADD TASK")) = str ""
  /\ VoiceAgent.removeCreate (str "please create task x") = str "please create task x".
Proof. repeat split; vm_compute; reflexivity. Qed.

Example mark_identifier_examples :
  trim (VoiceAgent.removeDone (VoiceAgent.removeMark
          (str "Mark task Flipkart price updates as done")))
    = str "Flipkart price updates"
  /\ trim (VoiceAgent.removeDone (VoiceAgent.removeMark (str "mark task audit complete")))
     = str "audit"
  /\ VoiceAgent.removeDone (str "has done") = str "h".
Proof. repeat split; vm_compute; reflexivity. Qed.

Example splitOn_examples :
  VoiceAgent.splitOn (str " with ") (str "task Myntra listing with photos")
    = [str "task Myntra listing"; str "photos"]
  /\ VoiceAgent.splitOn (str " with ") (str "a with b with c") = [str "a"; str "b"; str "c"]
  /\ VoiceAgent.splitOn (str " with ") (str "") = [str ""].
Proof. repeat split; vm_compute; reflexivity. Qed.

(** ** The task list of the voice agent *)

Section VoiceAgentFacts.
Variable toLowerCase : jsstring -> jsstring.





Lemma activeTasks_markDone (identifier : jsstring) (tasks : list VoiceAgent.Task) :
  VoiceAgent.activeTasks (VoiceAgent.markDone toLowerCase identifier tasks)
    = List.filter (fun task => negb (VoiceAgent.titleMatches toLowerCase identifier task))
        (VoiceAgent.activeTasks tasks).
Proof.
  unfold VoiceAgent.activeTasks, VoiceAgent.markDone.
  induction tasks as [|task tasks IH]; simpl; [reflexivity|].
  destruct (VoiceAgent.titleMatches toLowerCase identifier task) eqn:Hmatch; simpl.
  - rewrite IH. destruct (VoiceAgent.status task); simpl; rewrite ?Hmatch; reflexivity.
  - rewrite IH. destruct (VoiceAgent.status task); simpl; rewrite ?Hmatch; reflexivity.
Qed.

(** X23. Marking tasks done takes exactly the matching tasks off the
    active board: the board afterwards is the board before without the
    tasks whose title matches, in the same order; the task list keeps
    its length. *)
Theorem markDone_board (identifier : jsstring) (tasks : list VoiceAgent.Task) :
  VoiceAgent.activeTasks (VoiceAgent.markDone toLowerCase identifier tasks)
    = List.filter (fun task => negb (VoiceAgent.titleMatches toLowerCase identifier task))
        (VoiceAgent.activeTasks tasks)
  /\ length (VoiceAgent.markDone toLowerCase identifier tasks) = length tasks.
Proof.
  split; [apply activeTasks_markDone|]. unfold VoiceAgent.markDone. apply length_map.
Qed.

Lemma includes_nil (s : jsstring) : VoiceAgent.includes [] s = true.
Proof. destruct s; reflexivity. Qed.

(** X24. A "mark task" command that names nothing marks everything:
    when the identifier left after the two replacements is empty (as in
    "mark task done"), every task is done afterwards. *)
Theorem mark_without_identifier (tasks : list VoiceAgent.Task) :
  toLowerCase [] = [] ->
  trim (VoiceAgent.removeDone (VoiceAgent.removeMark (str "mark task done"))) = []
  /\ Forall (fun task => VoiceAgent.status task = VoiceAgent.done)
       (VoiceAgent.markDone toLowerCase [] tasks).
Proof.
  intros Hlower. split; [vm_compute; reflexivity|].
  unfold VoiceAgent.markDone, VoiceAgent.titleMatches. rewrite Hlower.
  apply Forall_forall. intros task Htask.
  apply list_elem_of_In, in_map_iff in Htask as (old & <- & _).
  rewrite includes_nil. reflexivity.
Qed.

(** X25. An update re-opens what it touches: every task whose title
    matches is in progress afterwards, also when it was done, and it
    keeps its old notes when the command gives none. *)
Theorem updateNotes_reopens (identifier newNotes : jsstring) (tasks : list VoiceAgent.Task) :
  Forall2 (fun old new =>
             if VoiceAgent.titleMatches toLowerCase (trim identifier) old
             then VoiceAgent.status new = VoiceAgent.inProgress
                  /\ new ∈ VoiceAgent.activeTasks
                             (VoiceAgent.updateNotes toLowerCase identifier newNotes tasks)
                  /\ VoiceAgent.notes new
                     = (if nonempty newNotes then Some newNotes else VoiceAgent.notes old)
             else new = old)
    tasks (VoiceAgent.updateNotes toLowerCase identifier newNotes tasks).
Proof.
  apply Forall2_same_length_lookup_2.
  { unfold VoiceAgent.updateNotes. rewrite length_map. reflexivity. }
  intros i old new Hold Hnew.
  unfold VoiceAgent.updateNotes in Hnew. rewrite list_lookup_fmap, Hold in Hnew.
  injection Hnew as Hnew.
  destruct (VoiceAgent.titleMatches toLowerCase (trim identifier) old) eqn:Hmatch;
    [|symmetry; exact Hnew].
  split; [rewrite <- Hnew; reflexivity|]. split.
  - unfold VoiceAgent.activeTasks. apply list_elem_of_In, filter_In. split.
    + apply list_elem_of_In, list_elem_of_lookup. exists i.
      unfold VoiceAgent.updateNotes. rewrite list_lookup_fmap, Hold. simpl.
      rewrite Hmatch. f_equal. exact Hnew.
    + rewrite <- Hnew. reflexivity.
  - rewrite <- Hnew. simpl. destruct newNotes; reflexivity.
Qed.

End VoiceAgentFacts.

(** ** The parts of an update command *)

Lemma join_cons_char (sep : jsstring) (c : N) (piece : jsstring) (rest : list jsstring) :
  join sep ((c :: piece) :: rest) = c :: join sep (piece :: rest).
Proof. destruct rest; reflexivity. Qed.

Lemma split_nonempty (sep : N -> bool) (s : jsstring) : split sep s <> [].
Proof.
  destruct s as [|c s]; simpl; [discriminate|].
  destruct (sep c); [discriminate|]. destruct (split sep s); discriminate.
Qed.

Lemma join_split_space (s : jsstring) : join (str " ") (split sep_space s) = s.
Proof.
  induction s as [|c s IH]; [reflexivity|]. cbn [split].
  pose proof (split_nonempty sep_space s) as Hne.
  destruct (sep_space c) eqn:Hc.
  - apply N.eqb_eq in Hc as ->.
    destruct (split sep_space s) as [|piece rest]; [congruence|].
    change (join (str " ") ([] :: piece :: rest)) with (32%N :: join (str " ") (piece :: rest)).
    rewrite IH. reflexivity.
  - destruct (split sep_space s) as [|piece rest]; [congruence|].
    rewrite join_cons_char, IH. reflexivity.
Qed.

Lemma startsWith_app (p s : jsstring) :
  VoiceAgent.startsWith p s = true -> s = p ++ drop (length p) s.
Proof.
  revert s. induction p as [|a p IH]; intros s Hs; simpl; [reflexivity|].
  destruct s as [|b s]; simpl in Hs; [discriminate|].
  apply andb_true_iff in Hs as [Hab Hs]. apply N.eqb_eq in Hab as ->.
  simpl. f_equal. apply IH, Hs.
Qed.

Lemma splitOnFrom_nonempty (sep : jsstring) (skip : nat) (s : jsstring) :
  VoiceAgent.splitOnFrom sep skip s <> [].
Proof.
  revert skip. induction s as [|c s IH]; intros skip; simpl; [discriminate|].
  destruct skip; [|apply IH].
  destruct (VoiceAgent.startsWith sep (c :: s)); [discriminate|].
  destruct (VoiceAgent.splitOnFrom sep 0 s); discriminate.
Qed.

Lemma join_splitOnFrom (sep : jsstring) (skip : nat) (s : jsstring) :
  sep <> [] -> join sep (VoiceAgent.splitOnFrom sep skip s) = drop skip s.
Proof.
  intros Hsep. revert skip. induction s as [|c s IH]; intros skip; simpl.
  - destruct skip; reflexivity.
  - destruct skip as [|skip]; [|apply IH].
    destruct (VoiceAgent.startsWith sep (c :: s)) eqn:Hstart.
    + pose proof (splitOnFrom_nonempty sep (length sep - 1) s) as Hne.
      pose proof (IH (length sep - 1)) as Hrest.
      destruct (VoiceAgent.splitOnFrom sep (length sep - 1) s) as [|piece rest]; [congruence|].
      change (join sep ([] :: piece :: rest)) with (sep ++ join sep (piece :: rest)).
      rewrite Hrest.
      transitivity (sep ++ drop (length sep) (c :: s));
        [|symmetry; apply startsWith_app, Hstart].
      destruct sep as [|a sep]; [congruence|]. simpl. rewrite Nat.sub_0_r. reflexivity.
    + pose proof (splitOnFrom_nonempty sep 0 s) as Hne.
      pose proof (IH 0) as Hrest.
      destruct (VoiceAgent.splitOnFrom sep 0 s) as [|piece rest]; [congruence|].
      rewrite join_cons_char, Hrest. reflexivity.
Qed.

Lemma splitOn_first_char (sep : jsstring) (c : N) (s : jsstring) :
  VoiceAgent.startsWith sep (c :: s) = false ->
  exists piece rest,
    VoiceAgent.splitOn sep s = piece :: rest
    /\ VoiceAgent.splitOn sep (c :: s) = (c :: piece) :: rest.
Proof.
  intros Hstart. unfold VoiceAgent.splitOn. simpl. rewrite Hstart.
  pose proof (splitOnFrom_nonempty sep 0 s) as Hne.
  destruct (VoiceAgent.splitOnFrom sep 0 s) as [|piece rest]; [congruence|].
  exists piece, rest. split; reflexivity.
Qed.

Lemma split_space_first (first body : jsstring) :
  Forall (fun c => sep_space c = false) first ->
  split sep_space (first ++ 32%N :: body) = first :: split sep_space body.
Proof.
  intros Hfirst. induction Hfirst as [|x first Hx _ IH]; simpl; [reflexivity|].
  rewrite Hx, IH. reflexivity.
Qed.

(** X26. The parts of an update command fit together again: the
    identifier and the note parts joined with " with " give the body, and
    the body is the message after its first space.  So for a message
    "<word> task <text>" the identifier begins with "task": the word
    "task" of the command is part of what is matched against the
    titles. *)
Theorem update_command_parts (message : jsstring) :
  join (str " with ") (VoiceAgent.updateParts message) = VoiceAgent.updateBody message
  /\ (forall first body,
        Forall (fun c => sep_space c = false) first ->
        message = first ++ str " " ++ body ->
        VoiceAgent.updateBody message = body)
  /\ (forall first text,
        Forall (fun c => sep_space c = false) first ->
        message = first ++ str " task " ++ text ->
        exists identifier noteParts,
          VoiceAgent.updateParts message = identifier :: noteParts
          /\ VoiceAgent.startsWith (str "task") identifier = true).
Proof.
  assert (Hbody : forall first body,
            Forall (fun c => sep_space c = false) first ->
            message = first ++ str " " ++ body ->
            VoiceAgent.updateBody message = body).
  { intros first body Hfirst ->. unfold VoiceAgent.updateBody.
    change (first ++ str " " ++ body) with (first ++ 32%N :: body).
    rewrite (split_space_first first body Hfirst). simpl tail. apply join_split_space. }
  split; [|split].
  - unfold VoiceAgent.updateParts, VoiceAgent.splitOn.
    rewrite join_splitOnFrom by key_ne. reflexivity.
  - exact Hbody.
  - intros first text Hfirst Hmessage.
    unfold VoiceAgent.updateParts.
    rewrite (Hbody first (str "task " ++ text) Hfirst Hmessage).
    change (str "task " ++ text) with (116%N :: 97%N :: 115%N :: 107%N :: 32%N :: text).
    destruct (splitOn_first_char (str " with ") 107%N (32%N :: text) eq_refl)
      as (p1 & r1 & _ & H1).
    destruct (splitOn_first_char (str " with ") 115%N (107%N :: 32%N :: text) eq_refl)
      as (p2 & r2 & H2' & H2).
    destruct (splitOn_first_char (str " with ") 97%N (115%N :: 107%N :: 32%N :: text) eq_refl)
      as (p3 & r3 & H3' & H3).
    destruct (splitOn_first_char (str " with ") 116%N
                (97%N :: 115%N :: 107%N :: 32%N :: text) eq_refl)
      as (p4 & r4 & H4' & H4).
    rewrite H1 in H2'. injection H2' as <- <-.
    rewrite H2 in H3'. injection H3' as <- <-.
    rewrite H3 in H4'. injection H4' as <- <-.
    rewrite H4. eexists _, _. split; reflexivity.
Qed.

Lemma mark_without_identifier_witness :
  Forall (fun task => VoiceAgent.status task = VoiceAgent.done)
    (VoiceAgent.markDone (fun s => s) []
       [ {| VoiceAgent.id := str "1"; VoiceAgent.title := str "Audit";
            VoiceAgent.status := VoiceAgent.pending; VoiceAgent.notes := None |} ]).
Proof. apply (mark_without_identifier (fun s => s)). reflexivity. Defined.

Lemma update_command_parts_witness :
  VoiceAgent.updateBody (str "update task Myntra listing with photos")
    = str "task Myntra listing with photos"
  /\ exists identifier noteParts,
       VoiceAgent.updateParts (str "update task Myntra listing with photos")
         = identifier :: noteParts
       /\ VoiceAgent.startsWith (str "task") identifier = true.
Proof.
  destruct (update_command_parts (str "update task Myntra listing with photos"))
    as (_ & Hbody & Htask).
  split.
  - apply (Hbody (str "update")); [repeat constructor | reflexivity].
  - apply (Htask (str "update") (str "Myntra listing with photos"));
      [repeat constructor | reflexivity].
Defined.
